(** * OMR evaluation: the batch orchestration of [streamlit_app.py] and the
      Mark Detector contract it drives.

    - [Detect]: the Mark Detector's verdict rule.  The detector itself
      ([app.services.detect.evaluate_by_questions]) is a collaborator of the
      front end and its code is not part of [streamlit_app.py]; its decision
      rule is modelled from the written contract (section 4.4).
    - [App]: the evaluation loop, the 500-file cap, the optional scoring,
      the optional result post and the debug overlay, translated from
      [streamlit_app.py] lines 197-299.  Every collaborator the script
      imports is a field of the [Services] class.
    - [Sample]: a small instance of [Services] on which the script runs.
    - [Page]: the rest of the page, lines 111-204 and 301-351: the answer
      key uploaders, the status row, the summary table and the writes of
      the Excel export; [PageSample]: a key workbook, an Excel writer and
      more runs for the sample world.
    - [DetectFacts], [AppFacts], [PageFacts]: the results. *)

From Stdlib Require Import QArith.
From stdpp Require Import gmap strings list fin_maps sorting.

Local Open Scope Z_scope.

(* ===================================================================== *)
(** ** Part 1: the Mark Detector's verdict rule                           *)
(* ===================================================================== *)

Module Detect.

(** The verdict for one question (data model, "Answer"). *)
Inductive Verdict : Type :=
  | Single (option_index : nat)
  | NoneMarked
  | AmbiguousMultiple.

#[global] Instance Verdict_eq_dec : EqDecision Verdict.
Proof. solve_decision. Defined.

(** Fill fractions are rationals; [a < b] as a boolean. *)
Definition Qlt_bool (a b : Q) : bool := negb (Qle_bool b a).

(** An option of a question together with its fill fraction. *)
Definition scored : Type := nat * Q.

(** Step 1 hands over one fraction per option, in option order. *)
Definition enumerate (fractions : list Q) : list scored :=
  zip (seq 0 (length fractions)) fractions.

(** Modelled from the spec: step 2 of section 4.4, "sort options by fill
    fraction descending", as a stable insertion sort, an option staying
    ahead of later options of equal fraction. *)
Fixpoint insert_desc (x : scored) (l : list scored) : list scored :=
  match l with
  | [] => [x]
  | y :: l' => if Qle_bool (snd y) (snd x) then x :: l else y :: insert_desc x l'
  end.

Definition sort_desc (l : list scored) : list scored := foldr insert_desc [] l.

(** Modelled from the spec: the detector's per-question decision (steps 3-5
    of section 4.4); the detector's code is not in [streamlit_app.py].  A
    question with no option has no top fraction and is none-marked; with a
    single option there is no second fraction to separate from. *)
Definition decide_sorted (fill_threshold min_margin : Q) (sorted : list scored) : Verdict :=
  match sorted with
  | [] => NoneMarked
  | (i, top) :: rest =>
      if Qlt_bool top fill_threshold then NoneMarked
      else match rest with
           | [] => Single i
           | (_, second) :: _ =>
               if Qlt_bool (top - second) min_margin then AmbiguousMultiple
               else Single i
           end
  end.

(** Modelled from the spec: the Mark Detector on one question, from its
    per-option fill fractions and the two tunables. *)
Definition classify (fill_threshold min_margin : Q) (fractions : list Q) : Verdict :=
  decide_sorted fill_threshold min_margin (sort_desc (enumerate fractions)).

(** The detector over the questions of a sheet, one verdict per question. *)
Definition classify_all (fill_threshold min_margin : Q) (sheet : list (list Q)) : list Verdict :=
  map (classify fill_threshold min_margin) sheet.

(** Descending order of the fractions. *)
Definition desc (x y : scored) : Prop := (snd y <= snd x)%Q.

End Detect.

(* ===================================================================== *)
(** ** Part 2: the evaluation run of [streamlit_app.py]                   *)
(* ===================================================================== *)

Module App.

(** A Python call either returns or raises; [msg] is [str(e)]. *)
Inductive exc (A : Type) : Type :=
  | Ok (a : A)
  | Raise (msg : string).
Arguments Ok {A} a.
Arguments Raise {A} msg.

#[global] Instance exc_ret : MRet exc := fun _ a => Ok a.
#[global] Instance exc_bind : MBind exc := fun _ _ f m =>
  match m with
  | Ok a => f a
  | Raise msg => Raise msg
  end.

(** One entry of [st.file_uploader(..., accept_multiple_files=True)]. *)
Record UploadedFile : Type := mkFile {
  name : string;
  data : string
}.

(** A question descriptor of the template JSON: its ["index"] entry when
    present (an integer, the question's stable index of the data model) and
    the rest of the object. *)
Record Question (G : Type) : Type := mkQuestion {
  index : option Z;
  geometry : G
}.
Arguments mkQuestion {G} index geometry.
Arguments index {G} q.
Arguments geometry {G} q.

(** The decoded template JSON: its ["questions"] entry when present and the
    rest of the object. *)
Record Template (G T : Type) : Type := mkTemplate {
  questions : option (list (Question G));
  layout : T
}.
Arguments mkTemplate {G T} questions layout.
Arguments questions {G T} t.
Arguments layout {G T} t.

(** Modelled from the spec: the collaborators the script imports ([PIL],
    [numpy], [pandas], [requests], [app.services.*],
    [app.core.config.settings]), whose code is not part of
    [streamlit_app.py].  Each is a function of its arguments that returns
    or raises (sections 4.1-4.5: every stage is deterministic for a given
    input, detection is a pure function of the image and parameters).  A
    local [from ... import ...] inside the loop is part of the call that
    follows it: the call raises when the import does. *)
Class Services : Type := {
  Img : Type;        (* numpy pixel array *)
  Geometry : Type;   (* option regions and subject tag of a question *)
  Layout : Type;     (* the other entries of the template *)
  Answers : Type;    (* what [evaluate_by_questions] returns *)
  KeyMap : Type;     (* what [parse_key_excel] returns *)
  Score : Type;
  Cols : Type;
  Frame : Type;      (* pandas DataFrame *)
  Overlay : Type;
  (* [np.array(Image.open(uf).convert("RGB"))] *)
  open_rgb : UploadedFile -> exc Img;
  detect_orientation : Img -> exc (Img * Z);
  rectify_perspective : Img -> exc Img;
  (* [_json.loads(tpl_file.getvalue().decode("utf-8"))] *)
  json_loads : string -> exc (Template Geometry Layout);
  (* positional image and questions, then the keyword arguments *)
  evaluate_by_questions :
    Img -> list (Question Geometry) -> gmap string Q -> exc Answers;
  (* [np_img.shape[:2]], height first *)
  shape : Img -> Z * Z;
  estimate_grid_rois : Z -> Z -> exc (list (Question Geometry));
  subjects : list string;
  (* truth value of a loaded key, as in [if key_map:] *)
  key_truthy : KeyMap -> bool;
  compute_scores_from_answers :
    Answers -> KeyMap -> exc (gmap string (option Score) * option Score);
  format_answers_as_columns : Answers -> exc Cols;
  DataFrame : Cols -> exc Frame;
  (* [os.path.splitext(n)[0]] *)
  splitext : string -> string;
  (* [import requests] *)
  import_requests : exc unit;
  draw_overlay :
    Img -> Template Geometry Layout -> Answers -> gmap string Q -> exc Overlay
}.

Section Run.
Context `{Services}.

(** A cell of a summary row. *)
Inductive value : Type :=
  | VStr (s : string)
  | VScore (x : Score)
  | VInt (z : Z).

(** The widget values and loaded inputs the evaluation reads (lines
    134-195). *)
Record Run : Type := mkRun {
  key_map : option KeyMap;
  key_sheet : option string;
  sheet_version : string;
  tpl_file : option string;
  fill_threshold : Q;
  min_margin : Q;
  scale_x : Q;
  scale_y : Q;
  offset_x : Q;
  offset_y : Q;
  show_overlay : bool;
  save_to_db : bool;
  large_batch : bool
}.

(** The body of the JSON posted to the results API (lines 266-272). *)
Record Payload : Type := mkPayload {
  student_code : string;
  payload_sheet_version : string;
  per_subject : gmap string value;
  total : value;
  details : Answers
}.

(** The variables the loop updates: [results], [detailed_sheets] and the
    module-level name [answers] ([None] while it is unbound). *)
Record State : Type := mkState {
  results : list (gmap string value);
  detailed_sheets : list (string * Frame);
  answers : option Answers
}.

(** Statements: they update the variables and return or raise; what was
    updated before a raise stays updated. *)
Definition M (A : Type) : Type := State -> State * exc A.

Definition ret {A : Type} (a : A) : M A := fun st => (st, Ok a).

Definition bind {A B : Type} (m : M A) (f : A -> M B) : M B := fun st =>
  match m st with
  | (st', Ok a) => f a st'
  | (st', Raise msg) => (st', Raise msg)
  end.

Definition lift {A : Type} (e : exc A) : M A := fun st => (st, e).

(** [try: m  except Exception as e: handler(str(e))] *)
Definition try_except (m : M unit) (handler : string -> M unit) : M unit :=
  fun st =>
    match m st with
    | (st', Ok tt) => (st', Ok tt)
    | (st', Raise msg) => handler msg st'
    end.

Definition results_append (row : gmap string value) : M unit := fun st =>
  (mkState (results st ++ [row]) (detailed_sheets st) (answers st), Ok tt).

Definition detailed_sheets_append (sheet : string * Frame) : M unit := fun st =>
  (mkState (results st) (detailed_sheets st ++ [sheet]) (answers st), Ok tt).

Definition answers_assign (a : Answers) : M unit := fun st =>
  (mkState (results st) (detailed_sheets st) (Some a), Ok tt).

(** [sorted(qs, key=lambda q: q.get("index", 0))]: Python's [sorted] is
    stable, a question stays ahead of later questions of equal key. *)
Definition sort_key (q : Question Geometry) : Z := default 0 (index q).

Fixpoint insert_by_key (q : Question Geometry) (l : list (Question Geometry))
    : list (Question Geometry) :=
  match l with
  | [] => [q]
  | q' :: l' =>
      if sort_key q <=? sort_key q' then q :: l else q' :: insert_by_key q l'
  end.

Definition sorted (l : list (Question Geometry)) : list (Question Geometry) :=
  foldr insert_by_key [] l.

(** Ascending order of the sort keys. *)
Definition ascending (q q' : Question Geometry) : Prop :=
  sort_key q <= sort_key q'.

(** The arguments of one [evaluate_by_questions] call. *)
Record DetectArgs : Type := mkDetectArgs {
  da_img : Img;
  da_questions : list (Question Geometry);
  da_kwargs : gmap string Q
}.

(** The keyword arguments [scale_x=..., scale_y=..., offset_x=...,
    offset_y=...] of lines 227-228 and 295-296. *)
Definition alignment_kwargs (r : Run) : gmap string Q :=
  {[ "scale_x" := scale_x r; "scale_y" := scale_y r;
     "offset_x" := offset_x r; "offset_y" := offset_y r ]}.

(** Lines 219-236 up to the call: the questions and arguments handed to the
    detector, template-guided or grid-estimated. *)
Definition detect_args (r : Run) (np_img : Img) : exc DetectArgs :=
  match tpl_file r with
  | Some tf =>
      tpl ← json_loads tf;
      let qs := sorted (default [] (questions tpl)) in
      Ok (mkDetectArgs np_img qs (alignment_kwargs r))
  | None =>
      let '(h, w) := shape np_img in
      qs ← estimate_grid_rois w h;
      Ok (mkDetectArgs np_img qs ∅)
  end.

(** Lines 210-216: decode, orientation, perspective. *)
Definition preprocess (uf : UploadedFile) : exc Img :=
  image ← open_rgb uf;
  '(np_img, _) ← detect_orientation image;
  rectify_perspective np_img.

(** Lines 210-236: the value assigned to [answers] for one image. *)
Definition predict (r : Run) (uf : UploadedFile) : exc Answers :=
  np_img ← preprocess uf;
  args ← detect_args r np_img;
  evaluate_by_questions (da_img args) (da_questions args) (da_kwargs args).

(** [if key_map:] *)
Definition key_loaded (r : Run) : option KeyMap :=
  match key_map r with
  | Some km => if key_truthy km then Some km else None
  | None => None
  end.

(** Lines 239-242. *)
Definition scores (r : Run) (a : Answers)
    : exc (gmap string (option Score) * option Score) :=
  match key_loaded r with
  | Some km => compute_scores_from_answers a km
  | None => Ok (list_to_map ((fun s => (s, None)) <$> subjects), None)
  end.

(** [key_sheet or sheet_version] *)
Definition set_label (r : Run) : string :=
  match key_sheet r with
  | Some s => if decide (s = "") then sheet_version r else s
  | None => sheet_version r
  end.

(** Lines 246-248: [per_subj_scores[s]] raises [KeyError] on a subject the
    dictionary lacks. *)
Fixpoint fill_subjects (ss : list string)
    (per_subj_scores : gmap string (option Score))
    (row : gmap string value) : exc (gmap string value) :=
  match ss with
  | [] => Ok row
  | s :: ss' =>
      match per_subj_scores !! s with
      | None => Raise ("'" +:+ s +:+ "'")
      | Some None => fill_subjects ss' per_subj_scores row
      | Some (Some x) => fill_subjects ss' per_subj_scores (<[s := VScore x]> row)
      end
  end.

(** Line 245. *)
Definition base_row (r : Run) (uf : UploadedFile) : gmap string value :=
  {[ "filename" := VStr (name uf); "Set" := VStr (set_label r) ]}.

(** Lines 239-250: the summary row of an image. *)
Definition summary_row (r : Run) (uf : UploadedFile) (a : Answers)
    : exc (gmap string value) :=
  '(per_subj_scores, total_score) ← scores r a;
  row ← fill_subjects subjects per_subj_scores (base_row r uf);
  Ok (match total_score with
      | Some t => <["total" := VScore t]> row
      | None => row
      end).

(** Line 260: [{s: row.get(s) for s in settings.subjects if s in row}] *)
Definition row_subjects (row : gmap string value) : gmap string value :=
  foldl (fun d s => match row !! s with
                    | Some v => <[s := v]> d
                    | None => d
                    end) ∅ subjects.

(** Lines 266-272. *)
Definition payload_of (r : Run) (uf : UploadedFile)
    (row : gmap string value) (a : Answers) : Payload :=
  mkPayload (splitext (name uf)) (set_label r) (row_subjects row)
            (default (VInt 0) (row !! "total")) a.

(** A row without any score cell. *)
Definition scoreless (row : gmap string value) : Prop :=
  forall k x, row !! k <> Some (VScore x).

(** Line 278. *)
Definition error_row (uf : UploadedFile) (msg : string) : gmap string value :=
  {[ "filename" := VStr (name uf); "error" := VStr msg ]}.

(** Lines 253-256. *)
Definition image_sheet (a : Answers) : exc Frame :=
  cols ← format_answers_as_columns a;
  DataFrame cols.

Section Loop.
(** [requests.post(...)] for the image at loop position [i]: the network
    decides whether it returns or raises. *)
Variable post : nat -> Payload -> exc unit.

(** Lines 259-276. *)
Definition save (r : Run) (i : nat) (uf : UploadedFile)
    (row : gmap string value) (a : Answers) : M unit :=
  if save_to_db r && bool_decide (is_Some (key_loaded r)) then
    bind (lift import_requests) (fun _ =>
    try_except (lift (post i (payload_of r uf row a))) (fun _ => ret tt))
  else ret tt.

(** Lines 210-276: the body of the outer [try]. *)
Definition body (r : Run) (i : nat) (uf : UploadedFile) : M unit :=
  bind (lift (predict r uf)) (fun a =>
  bind (answers_assign a) (fun _ =>
  bind (lift (summary_row r uf a)) (fun row =>
  bind (results_append row) (fun _ =>
  bind (if large_batch r then ret tt
        else bind (lift (image_sheet a)) (fun df =>
             detailed_sheets_append (name uf, df))) (fun _ =>
  save r i uf row a))))).

(** Lines 209-278: one pass of the loop. *)
Definition iteration (r : Run) (i : nat) (uf : UploadedFile) (st : State) : State :=
  fst (try_except (body r i uf)
         (fun msg => results_append (error_row uf msg)) st).

(** Lines 208-279: [for i, uf in enumerate(uploaded_files, 1)]; the
    progress bar is display only. *)
Fixpoint loop (r : Run) (i : nat) (files : list UploadedFile) (st : State) : State :=
  match files with
  | [] => st
  | uf :: files' => loop r (S i) files' (iteration r i uf st)
  end.

(** Lines 205-279: [results = []], [detailed_sheets = []], then the loop;
    [answers] is unbound when the script starts. *)
Definition initial : State := mkState [] [] None.

Definition evaluate (r : Run) (files : list UploadedFile) : State :=
  loop r 1 files initial.

(** What the overlay block (lines 284-299) shows. *)
Inductive OverlayOutcome : Type :=
  | NoOverlay
  | ScriptError (msg : string)       (* line 286 raises outside any [try] *)
  | OverlayInfo (msg : string)       (* [st.info], line 299 *)
  | OverlayShown (o : Overlay).      (* [st.image], line 297 *)

(** Lines 288-296; reading the unbound name [answers] raises. *)
Definition render_overlay (r : Run) (first : UploadedFile)
    (tpl : Template Geometry Layout) (st : State) : exc Overlay :=
  np_first ← preprocess first;
  a ← match answers st with
      | Some a => Ok a
      | None => Raise "name 'answers' is not defined"
      end;
  draw_overlay np_first tpl a (alignment_kwargs r).

(** Lines 284-299. *)
Definition overlay (r : Run) (files : list UploadedFile) (st : State)
    : OverlayOutcome :=
  match tpl_file r, files with
  | Some tf, first :: _ =>
      if show_overlay r && negb (large_batch r) then
        match json_loads tf with
        | Raise msg => ScriptError msg
        | Ok tpl =>
            match render_overlay r first tpl st with
            | Ok o => OverlayShown o
            | Raise msg => OverlayInfo ("Could not render overlay: " +:+ msg)
            end
        end
      else NoOverlay
  | _, _ => NoOverlay
  end.

(** Lines 198-200: the cap on the batch and whether the warning shows. *)
Definition cap (uploaded_files : list UploadedFile) : bool * list UploadedFile :=
  if (500 <? length uploaded_files)%nat
  then (true, take 500 uploaded_files)
  else (false, uploaded_files).

(** What one run of the script shows below the uploader. *)
Record Page : Type := mkPage {
  warning : bool;
  evaluated : list UploadedFile;
  outcome : option (State * OverlayOutcome)
}.

(** Lines 197-299; [clicked] is the value of the Evaluate button. *)
Definition main (r : Run) (uploaded_files : list UploadedFile) (clicked : bool)
    : Page :=
  match uploaded_files with
  | [] => mkPage false [] None
  | _ :: _ =>
      let '(warned, files) := cap uploaded_files in
      mkPage warned files
        (if clicked
         then let st := evaluate r files in Some (st, overlay r files st)
         else None)
  end.

End Loop.

(** The records one image contributes to [results]. *)
Definition image_rows (r : Run) (uf : UploadedFile) : list (gmap string value) :=
  match predict r uf with
  | Raise msg => [error_row uf msg]
  | Ok a =>
      match summary_row r uf a with
      | Raise msg => [error_row uf msg]
      | Ok row =>
          match (if large_batch r then Ok tt else _ ← image_sheet a; Ok tt) with
          | Raise msg => [row; error_row uf msg]
          | Ok _ =>
              if save_to_db r && bool_decide (is_Some (key_loaded r)) then
                match import_requests with
                | Raise msg => [row; error_row uf msg]
                | Ok _ => [row]
                end
              else [row]
          end
      end
  end.

(** The sheets one image contributes to [detailed_sheets]. *)
Definition image_sheets (r : Run) (uf : UploadedFile) : list (string * Frame) :=
  match predict r uf with
  | Raise _ => []
  | Ok a =>
      match summary_row r uf a with
      | Raise _ => []
      | Ok _ =>
          if large_batch r then []
          else match image_sheet a with
               | Ok df => [(name uf, df)]
               | Raise _ => []
               end
      end
  end.

(** The binding of [answers] after an image: the image's answers when its
    detection returned, the previous binding otherwise. *)
Definition image_answers (r : Run) (uf : UploadedFile) (before : option Answers)
    : option Answers :=
  match predict r uf with
  | Ok a => Some a
  | Raise _ => before
  end.

(** The same run with the two detection sliders moved. *)
Definition with_tunables (t m : Q) (r : Run) : Run :=
  mkRun (key_map r) (key_sheet r) (sheet_version r) (tpl_file r) t m
        (scale_x r) (scale_y r) (offset_x r) (offset_y r)
        (show_overlay r) (save_to_db r) (large_batch r).

(** The same run with the overlay checkbox set to [b]. *)
Definition with_overlay (b : bool) (r : Run) : Run :=
  mkRun (key_map r) (key_sheet r) (sheet_version r) (tpl_file r)
        (fill_threshold r) (min_margin r)
        (scale_x r) (scale_y r) (offset_x r) (offset_y r)
        b (save_to_db r) (large_batch r).

End Run.

End App.

(* ===================================================================== *)
(** ** Part 3: a small world to run the script in                         *)
(* ===================================================================== *)

Module Sample.
Import App.

(** A sheet as the detector sees it: the fill fractions of each question. *)
Definition sheet_1 : list (list Q) := [[80 # 100; 10 # 100; 5 # 100]].
Definition sheet_2 : list (list Q) := [[10 # 100; 85 # 100; 5 # 100]].

Definition decode (uf : UploadedFile) : exc (list (list Q)) :=
  if decide (data uf = "sheet-1") then Ok sheet_1
  else if decide (data uf = "sheet-2") then Ok sheet_2
  else Raise "cannot identify image file".

Definition template : Template unit unit :=
  mkTemplate (Some [mkQuestion (Some 2) tt; mkQuestion None tt;
                    mkQuestion (Some 1) tt]) tt.

(** A detector that follows the contract of section 4.4, reading its two
    tunables from keyword arguments with the sliders' defaults. *)
Definition detector (img : list (list Q)) (kwargs : gmap string Q)
    : list Detect.Verdict :=
  Detect.classify_all (default (45 # 100) (kwargs !! "fill_threshold"))
                      (default (12 # 100) (kwargs !! "min_margin")) img.

Definition count_correct (a : list Detect.Verdict) (key : list nat) : nat :=
  length (filter (fun p => p.1 = Detect.Single p.2) (zip a key)).

(** The collaborators; [requests_installed] tells whether [import requests]
    finds the package, [frames_ok] whether [pd.DataFrame] accepts the
    columns. *)
Definition world (requests_installed frames_ok : bool) : Services := {|
  Img := list (list Q);
  Geometry := unit;
  Layout := unit;
  Answers := list Detect.Verdict;
  KeyMap := list nat;
  Score := nat;
  Cols := list Detect.Verdict;
  Frame := list Detect.Verdict;
  Overlay := list (list Q) * list Detect.Verdict;
  open_rgb := decode;
  detect_orientation := fun img => Ok (img, 0);
  rectify_perspective := fun img => Ok img;
  json_loads := fun s =>
    if decide (s = "") then Raise "Expecting value" else Ok template;
  evaluate_by_questions := fun img _ kwargs => Ok (detector img kwargs);
  shape := fun img => (Z.of_nat (length img), 3);
  estimate_grid_rois := fun _ _ => Ok [mkQuestion (Some 0) tt];
  subjects := ["Maths"];
  key_truthy := fun km => negb (bool_decide (km = []));
  compute_scores_from_answers := fun a km =>
    Ok ({[ "Maths" := Some (count_correct a km) ]}, Some (count_correct a km));
  format_answers_as_columns := fun a => Ok a;
  DataFrame := fun cols =>
    if frames_ok then Ok cols else Raise "All arrays must be of the same length";
  splitext := fun n => n;
  import_requests :=
    if requests_installed then Ok tt else Raise "No module named 'requests'";
  draw_overlay := fun img _ a _ => Ok (img, a)
|}.

Definition file_1 : UploadedFile := mkFile "one.png" "sheet-1".
Definition file_2 : UploadedFile := mkFile "two.png" "sheet-2".
Definition file_bad : UploadedFile := mkFile "bad.png" "not an image".

(** A run with a template, no key, the sliders at their defaults. *)
Definition run_plain (requests_installed frames_ok : bool)
    : @Run (world requests_installed frames_ok) :=
  mkRun None None "A" (Some "{...}") (45 # 100) (12 # 100) 1 1 0 0
        false false false.

(** The same with the overlay checkbox ticked. *)
Definition run_overlay : @Run (world true true) :=
  mkRun None None "A" (Some "{...}") (45 # 100) (12 # 100) 1 1 0 0
        true false false.

(** A run with a key, saving to the database. *)
Definition run_saving (requests_installed : bool)
    : @Run (world requests_installed true) :=
  @mkRun (world requests_installed true)
         (Some [0%nat]) (Some "SetA") "A" None (45 # 100) (12 # 100) 1 1 0 0
        false true true.

Definition post_up `{Services} : nat -> Payload -> exc unit :=
  fun _ _ => Ok tt.
Definition post_down `{Services} : nat -> Payload -> exc unit :=
  fun _ _ => Raise "Connection refused".

End Sample.

(* ===================================================================== *)
(** ** Part 4: the rest of the page: key loading, status row, export      *)
(* ===================================================================== *)

Module Page.
Import App.

Section Widgets.
Context `{Services}.

(** *** Answer key upload (lines 137-167) *)

(** [pd.ExcelFile(BytesIO(key_bytes)).sheet_names] *)
Variable ExcelFile : string -> exc (list string).
(** The two "Key sheet (Set)" select boxes: what the user picks among the
    offered sheet names ([None] when nothing can be picked). *)
Variable selectbox_sidebar : list string -> exc (option string).
Variable selectbox_main : list string -> exc (option string).
(** [parse_key_excel(key_bytes, key_sheet)] *)
Variable parse_key_excel : string -> option string -> exc (option KeyMap).

(** What the key widgets report. *)
Inductive KeyMessage : Type :=
  | SidebarSuccess (sheet : option string)   (* line 149 *)
  | SidebarError (msg : string)              (* line 151 *)
  | MainSuccess (sheet : option string)      (* line 162 *)
  | MainError (msg : string)                 (* line 164 *)
  | NoKeyWarning.                            (* line 167 *)

(** The names [key_sheet] and [key_map], the messages shown so far and
    whether the main-pane expander opens ([expanded=key_map is None]). *)
Record KeyState : Type := mkKeyState {
  loaded_sheet : option string;
  loaded_map : option KeyMap;
  messages : list KeyMessage;
  expanded : bool
}.

(** The body of either [try] (lines 145-148, 158-161): each assignment
    made before a raise stays made. *)
Definition read_key (selectbox : list string -> exc (option string))
    (key_bytes : string) (key_sheet : option string) (key_map : option KeyMap)
    : option string * option KeyMap * exc unit :=
  match ExcelFile key_bytes with
  | Raise msg => (key_sheet, key_map, Raise msg)
  | Ok sheet_names =>
      match selectbox sheet_names with
      | Raise msg => (key_sheet, key_map, Raise msg)
      | Ok sheet =>
          match parse_key_excel key_bytes sheet with
          | Raise msg => (sheet, key_map, Raise msg)
          | Ok km => (sheet, km, Ok tt)
          end
      end
  end.

(** Lines 138-151: the sidebar uploader. *)
Definition load_sidebar (key_file_sidebar : option string) : KeyState :=
  match key_file_sidebar with
  | None => mkKeyState None None [] true
  | Some key_bytes =>
      match read_key selectbox_sidebar key_bytes None None with
      | (sheet, km, Ok _) =>
          mkKeyState sheet km [SidebarSuccess sheet] (bool_decide (km = None))
      | (sheet, km, Raise msg) =>
          mkKeyState sheet km [SidebarError msg] (bool_decide (km = None))
      end
  end.

(** Lines 154-164: the main-pane uploader, read only while [key_map] is
    still [None]. *)
Definition load_main (key_file_main : option string) (ks : KeyState) : KeyState :=
  match loaded_map ks, key_file_main with
  | None, Some key_bytes =>
      match read_key selectbox_main key_bytes (loaded_sheet ks) (loaded_map ks) with
      | (sheet, km, Ok _) =>
          mkKeyState sheet km (messages ks ++ [MainSuccess sheet]) (expanded ks)
      | (sheet, km, Raise msg) =>
          mkKeyState sheet km (messages ks ++ [MainError msg]) (expanded ks)
      end
  | _, _ => ks
  end.

(** Lines 166-167. *)
Definition warn_no_key (ks : KeyState) : KeyState :=
  match loaded_map ks with
  | None => mkKeyState (loaded_sheet ks) (loaded_map ks)
                       (messages ks ++ [NoKeyWarning]) (expanded ks)
  | Some _ => ks
  end.

(** Lines 137-167. *)
Definition load_key (key_file_sidebar key_file_main : option string) : KeyState :=
  warn_no_key (load_main key_file_main (load_sidebar key_file_sidebar)).

(** The run that evaluates with what [load_key] left in [key_sheet] and
    [key_map]. *)
Definition uses_key (ks : KeyState) (r : Run) : Prop :=
  key_map r = loaded_map ks /\ key_sheet r = loaded_sheet ks.

(** *** Status row (lines 111-118, 202-204) *)

Record Metrics : Type := mkMetrics {
  images_selected : nat;
  answer_key : string;
  template_status : string
}.

(** Lines 111-118; an uploaded template, being a file object, is truthy. *)
Definition _status_metrics (uploaded_files : list UploadedFile)
    (key_map : option KeyMap) (tpl_file : option string) : Metrics :=
  let files_count := match uploaded_files with
                     | [] => 0%nat
                     | _ :: _ => length uploaded_files
                     end in
  let key_status := match key_map with
                    | Some km => if key_truthy km then "Loaded" else "Not loaded"
                    | None => "Not loaded"
                    end in
  let tpl_status := match tpl_file with
                    | Some _ => "Loaded"
                    | None => "Not loaded"
                    end in
  mkMetrics files_count key_status tpl_status.

(** Lines 197-204: the status row and the count on the Evaluate button,
    both computed after the cap; nothing shows without an upload. *)
Definition status_row (r : Run) (uploaded_files : list UploadedFile)
    : option (Metrics * nat) :=
  match uploaded_files with
  | [] => None
  | _ :: _ =>
      let files := (cap uploaded_files).2 in
      Some (_status_metrics files (key_map r) (tpl_file r), length files)
  end.

(** *** Summary table and Excel export (lines 301-341) *)

(** [df.columns] of [pd.DataFrame(results)], as a set: the keys of all
    rows. *)
Definition df_columns (results : list (gmap string value)) : gset string :=
  ⋃ (dom <$> results).

(** Line 311. *)
Definition ordered_cols (results : list (gmap string value)) : list string :=
  filter (fun c => c ∈ df_columns results)
         ("filename" :: "Set" :: subjects ++ ["total"]).

(** A table: its column labels and, per row, one cell per column, [None]
    for a missing value. *)
Record Table : Type := mkTable {
  labels : list string;
  cells : list (list (option value))
}.

(** [df[cols]] *)
Definition select (cols : list string) (results : list (gmap string value)) : Table :=
  mkTable cols ((fun row => (fun c => row !! c) <$> cols) <$> results).

(** Line 312: the selected columns, or the frame as it is. *)
Inductive Export : Type :=
  | Selected (t : Table)
  | Whole (results : list (gmap string value)).

Definition df_for_export (results : list (gmap string value)) : Export :=
  match ordered_cols results with
  | [] => Whole results
  | cols => Selected (select cols results)
  end.

(** Lines 315-320: without an "error" column nothing happens; selecting
    [df[["filename", "error"]]] raises [KeyError] when the frame has no
    "filename" column; otherwise [dropna()] keeps the rows where both cells
    are present (the table is displayed when it is not empty). *)
Inductive ErrorsPane : Type :=
  | NoErrorColumn
  | FilenameKeyError
  | ErrorRows (table : list (value * value)).

Definition errors (results : list (gmap string value)) : ErrorsPane :=
  if decide ("error" ∈ df_columns results) then
    if decide ("filename" ∈ df_columns results) then
      ErrorRows (omap (fun row => f ← row !! "filename";
                                  e ← row !! "error"; Some (f, e))
                      results)
    else FilenameKeyError
  else NoErrorColumn.

(** A sheet of the downloaded workbook. *)
Inductive Sheet : Type :=
  | SummarySheet (e : Export)
  | ImageSheet (dfi : Frame).

(** The Excel writer of lines 335-341.  [ExcelWriter] is
    [pd.ExcelWriter(buffer, engine="openpyxl")]; [to_excel frame title writer]
    is [frame.to_excel(writer, index=False, sheet_name=title)], which raises
    on a title the engine refuses and writes into the sheet that already
    carries the title when there is one; [first_28 name] is [name[:28]], the
    first 28 characters of the file name. *)
Variable Writer : Type.
Variable ExcelWriter : exc Writer.
Variable to_excel : Sheet -> string -> Writer -> exc Writer.
Variable first_28 : string -> string.

(** Lines 339-341: one write per entry of [detailed_sheets], in order; the
    first raise ends the loop. *)
Fixpoint write_sheets (sheets : list (string * Frame)) (writer : Writer)
    : exc Writer :=
  match sheets with
  | [] => Ok writer
  | (name, dfi) :: rest =>
      writer ← to_excel (ImageSheet dfi) (first_28 name) writer;
      write_sheets rest writer
  end.

(** Lines 336-341, the body of the [with] block: the Summary sheet, then,
    unless large batch mode is on, the per-image sheets.  Nothing here is
    caught: a raise ends the script before the download buttons of lines
    342-351. *)
Definition workbook (r : Run) (st : State) : exc Writer :=
  writer ← ExcelWriter;
  writer ← to_excel (SummarySheet (df_for_export (results st))) "Summary" writer;
  if large_batch r then Ok writer
  else write_sheets (detailed_sheets st) writer.

End Widgets.

End Page.

(** A key workbook to load in the sample world. *)
Module PageSample.
Import App Sample Page.

Definition sheet_names (key_bytes : string) : exc (list string) :=
  if decide (key_bytes = "") then Raise "File is not a zip file"
  else Ok ["SetA"; "SetB"].

Definition pick_first (options : list string) : exc (option string) :=
  Ok (head options).

Definition pick_second (options : list string) : exc (option string) :=
  Ok (options !! 1%nat).

(** Sheet "SetA" holds a key, any other sheet is malformed. *)
Definition parse (key_bytes : string) (sheet : option string)
    : exc (option (list nat)) :=
  if decide (sheet = Some "SetA") then Ok (Some [0%nat])
  else Raise "Missing column: Answer".

(** A run with an empty key and a template. *)
Definition run_empty_key : @Run (world true true) :=
  @mkRun (world true true)
         (Some []) (Some "SetA") "A" (Some "{...}") (45 # 100) (12 # 100) 1 1 0 0
         false false false.

(** A scored run in large batch mode, nothing saved. *)
Definition run_large : @Run (world true true) :=
  @mkRun (world true true)
         (Some [0%nat]) (Some "SetA") "A" None (45 # 100) (12 # 100) 1 1 0 0
         false false true.

(** A scored run with per-image sheets. *)
Definition run_scored : @Run (world true true) :=
  @mkRun (world true true)
         (Some [0%nat]) (Some "SetA") "A" None (45 # 100) (12 # 100) 1 1 0 0
         true false false.

(** A run whose template does not decode. *)
Definition run_bad_template : @Run (world true true) :=
  @mkRun (world true true)
         None None "A" (Some "") (45 # 100) (12 # 100) 1 1 0 0
         true false false.

(** A run left with the sheet of a key that failed to parse. *)
Definition run_failed_key : @Run (world true true) :=
  @mkRun (world true true)
         None (Some "SetB") "A" None (45 # 100) (12 # 100) 1 1 0 0
         false false false.

(** The sample world with a scorer that reports no subject at all. *)
Definition world_no_subject : Services := {|
  Img := @Img (world true true);
  Geometry := unit;
  Layout := unit;
  Answers := list Detect.Verdict;
  KeyMap := list nat;
  Score := nat;
  Cols := list Detect.Verdict;
  Frame := list Detect.Verdict;
  Overlay := list (list Q) * list Detect.Verdict;
  open_rgb := decode;
  detect_orientation := fun img => Ok (img, 0);
  rectify_perspective := fun img => Ok img;
  json_loads := fun _ => Ok template;
  evaluate_by_questions := fun img _ kwargs => Ok (detector img kwargs);
  shape := fun img => (Z.of_nat (length img), 3);
  estimate_grid_rois := fun _ _ => Ok [mkQuestion (Some 0) tt];
  subjects := ["Maths"];
  key_truthy := fun km => negb (bool_decide (km = []));
  compute_scores_from_answers := fun a km => Ok (∅, Some (count_correct a km));
  format_answers_as_columns := fun a => Ok a;
  DataFrame := fun cols => Ok cols;
  splitext := fun n => n;
  import_requests := Ok tt;
  draw_overlay := fun img _ a _ => Ok (img, a)
|}.

(** An Excel writer for the sample world: a book is its sheets in order; a
    title with one of the characters a sheet title may not hold is refused,
    and a sheet written under a title already there goes over the earlier
    one. *)
Definition Book : Type := list (string * @Sheet (world true true)).

Definition new_book : exc Book := Ok [].

Definition refused (title : string) : bool :=
  existsb (fun c => bool_decide (is_Some (String.index 0 c title)))
          ["["; "]"; "*"; "?"; ":"; "/"; "\"].

Definition write_sheet (sheet : @Sheet (world true true)) (title : string)
    (book : Book) : exc Book :=
  if refused title then Raise "Invalid character found in sheet title"
  else if bool_decide (title ∈ book.*1)
       then Ok ((fun '(t, sh) => (t, if bool_decide (t = title) then sheet else sh))
                  <$> book)
       else Ok (book ++ [(title, sheet)]).

Definition take_28 (name : string) : string := String.substring 0 28 name.

(** A second copy of an upload, as browsers name it. *)
Definition file_copy : UploadedFile := mkFile "one[1].png" "sheet-1".

Definition run_no_subject : @Run world_no_subject :=
  @mkRun world_no_subject
         (Some [0%nat]) (Some "SetA") "A" None (45 # 100) (12 # 100) 1 1 0 0
         false false true.

End PageSample.

(* ===================================================================== *)
(** ** Results about the verdict rule                                     *)
(* ===================================================================== *)

Module DetectFacts.
Import Detect.

Lemma Qlt_bool_iff (a b : Q) : Qlt_bool a b = true <-> (a < b)%Q.
Proof.
  unfold Qlt_bool. rewrite negb_true_iff. split.
  - intros H. apply Qnot_le_lt. intros Hle.
    apply Qle_bool_iff in Hle. congruence.
  - intros H. destruct (Qle_bool b a) eqn:E; [|done].
    apply Qle_bool_iff in E. exfalso. exact (Qlt_not_le _ _ H E).
Qed.

Lemma Qlt_bool_false_iff (a b : Q) : Qlt_bool a b = false <-> (b <= a)%Q.
Proof.
  unfold Qlt_bool. rewrite negb_false_iff. apply Qle_bool_iff.
Qed.

Lemma insert_desc_perm (x : scored) (l : list scored) :
  insert_desc x l ≡ₚ x :: l.
Proof.
  induction l as [|y l IH]; simpl; [done|].
  destruct (Qle_bool (snd y) (snd x)); [done|].
  rewrite IH. apply Permutation_swap.
Qed.

Lemma sort_desc_perm (l : list scored) : sort_desc l ≡ₚ l.
Proof.
  induction l as [|x l IH]; simpl; [done|].
  rewrite insert_desc_perm. by rewrite IH.
Qed.

Lemma insert_desc_sorted (x : scored) (l : list scored) :
  Sorted desc l -> Sorted desc (insert_desc x l).
Proof.
  induction 1 as [|y l Hl IH Hhd]; simpl.
  - repeat constructor.
  - destruct (Qle_bool (snd y) (snd x)) eqn:E.
    + constructor; [by constructor|]. constructor.
      by apply Qle_bool_iff in E.
    + assert (Hxy : (snd x <= snd y)%Q).
      { apply Qlt_le_weak, Qlt_bool_iff. unfold Qlt_bool. by rewrite E. }
      constructor; [exact IH|].
      destruct l as [|z l]; simpl; [by constructor|].
      destruct (Qle_bool (snd z) (snd x)); constructor; [done|].
      by inversion Hhd.
Qed.

Lemma sort_desc_sorted (l : list scored) : Sorted desc (sort_desc l).
Proof.
  induction l as [|x l IH]; simpl; [constructor|].
  by apply insert_desc_sorted.
Qed.

(** The head of the sorted list carries the largest fraction. *)
Lemma sort_desc_top (l : list scored) (i : nat) (top : Q) (rest : list scored) :
  sort_desc l = (i, top) :: rest ->
  forall o, o ∈ l -> (snd o <= top)%Q.
Proof.
  intros Hs o Ho.
  pose proof (sort_desc_sorted l) as Hsorted. rewrite Hs in Hsorted.
  apply Sorted_StronglySorted in Hsorted.
  2:{ intros a b c Hab Hbc. unfold desc in *. by eapply Qle_trans. }
  rewrite <- (sort_desc_perm l), Hs in Ho.
  apply StronglySorted_inv in Hsorted as [_ Hall].
  apply elem_of_cons in Ho as [->|Ho]; [apply Qle_refl|].
  rewrite Forall_forall in Hall. exact (Hall o Ho).
Qed.

Lemma zip_seq_lookup (l : list Q) (s i : nat) (f : Q) :
  (i, f) ∈ zip (seq s (length l)) l <->
  exists k, i = (s + k)%nat /\ l !! k = Some f.
Proof.
  revert s. induction l as [|x l IH]; intros s; simpl.
  - split; [by intros ?%elem_of_nil|by intros (k & _ & ?)].
  - rewrite elem_of_cons, IH. split.
    + intros [[= -> ->]|(k & -> & Hk)].
      * exists 0%nat. split; [lia|done].
      * exists (S k). split; [lia|done].
    + intros ([|k] & -> & Hk); simpl in Hk.
      * left. f_equal; [lia|congruence].
      * right. exists k. split; [lia|done].
Qed.

(** [enumerate] pairs every fraction with its option index. *)
Lemma enumerate_lookup (fractions : list Q) (i : nat) (f : Q) :
  (i, f) ∈ enumerate fractions <-> fractions !! i = Some f.
Proof.
  unfold enumerate. rewrite zip_seq_lookup. split.
  - by intros (k & -> & Hk).
  - intros Hk. by exists i.
Qed.

(** The two leading entries of the sorted list are the largest fraction and
    the largest fraction among the other options. *)
Lemma sort_desc_top_two (fractions : list Q) (i j : nat) (top second : Q)
    (rest : list scored) :
  sort_desc (enumerate fractions) = (i, top) :: (j, second) :: rest ->
  fractions !! i = Some top /\ fractions !! j = Some second /\
  (forall k f, fractions !! k = Some f -> (f <= top)%Q) /\
  (forall k f, k <> i -> fractions !! k = Some f -> (f <= second)%Q).
Proof.
  intros Hs.
  pose proof (sort_desc_perm (enumerate fractions)) as Hp. rewrite Hs in Hp.
  pose proof (sort_desc_sorted (enumerate fractions)) as Hsorted.
  rewrite Hs in Hsorted.
  apply Sorted_StronglySorted in Hsorted.
  2:{ intros a b c Hab Hbc. unfold desc in *. by eapply Qle_trans. }
  apply StronglySorted_inv in Hsorted as [Htl _].
  apply StronglySorted_inv in Htl as [_ Hall].
  rewrite Forall_forall in Hall.
  repeat split.
  - apply enumerate_lookup. rewrite <- Hp. apply elem_of_cons. by left.
  - apply enumerate_lookup. rewrite <- Hp. apply elem_of_cons. right.
    apply elem_of_cons. by left.
  - intros k f Hk. apply enumerate_lookup in Hk.
    exact (sort_desc_top _ _ _ _ Hs (k, f) Hk).
  - intros k f Hne Hk. apply enumerate_lookup in Hk. rewrite <- Hp in Hk.
    apply elem_of_cons in Hk as [[= -> ->]|Hk]; [done|].
    apply elem_of_cons in Hk as [[= -> ->]|Hk]; [apply Qle_refl|].
    exact (Hall (k, f) Hk).
Qed.

(** C1.  The verdict of a question is read off its fill fractions sorted
    descending: with [top] and [second] the two leading fractions (the
    largest one, at option [i], and the largest among the others), the
    verdict is none-marked when [top] is below the fill threshold, otherwise
    ambiguous-multiple when [top - second] is below the minimum margin,
    otherwise option [i].  The scenario {0.50, 0.46, 0.02} with threshold
    0.45 and margin 0.12 is ambiguous-multiple. *)
Theorem verdict_by_sorted_fractions
    (fill_threshold min_margin : Q) (fractions : list Q)
    (i j : nat) (top second : Q) (rest : list scored)
    (Hsorted : sort_desc (enumerate fractions) = (i, top) :: (j, second) :: rest) :
  (fractions !! i = Some top /\ fractions !! j = Some second /\
   (forall k f, fractions !! k = Some f -> (f <= top)%Q) /\
   (forall k f, k <> i -> fractions !! k = Some f -> (f <= second)%Q)) /\
  ((top < fill_threshold)%Q ->
     classify fill_threshold min_margin fractions = NoneMarked) /\
  (~ (top < fill_threshold)%Q -> (top - second < min_margin)%Q ->
     classify fill_threshold min_margin fractions = AmbiguousMultiple) /\
  (~ (top < fill_threshold)%Q -> ~ (top - second < min_margin)%Q ->
     classify fill_threshold min_margin fractions = Single i) /\
  classify (45 # 100) (12 # 100) [50 # 100; 46 # 100; 2 # 100]
    = AmbiguousMultiple.
Proof.
  split; [by eapply sort_desc_top_two|].
  unfold classify at 1 2 3. rewrite Hsorted. simpl.
  repeat split.
  - intros Hlt. apply Qlt_bool_iff in Hlt. by rewrite Hlt.
  - intros Hge Hlt.
    destruct (Qlt_bool top fill_threshold) eqn:E1.
    { by apply Qlt_bool_iff in E1. }
    apply Qlt_bool_iff in Hlt. by rewrite Hlt.
  - intros Hge Hsep.
    destruct (Qlt_bool top fill_threshold) eqn:E1.
    { by apply Qlt_bool_iff in E1. }
    destruct (Qlt_bool (top - second) min_margin) eqn:E2; [|done].
    by apply Qlt_bool_iff in E2.
Qed.

(** The ambiguous scenario of the contract, obtained from the rule. *)
Lemma verdict_by_sorted_fractions_witness :
  classify (45 # 100) (12 # 100) [50 # 100; 46 # 100; 2 # 100]
    = AmbiguousMultiple.
Proof.
  refine (proj1 (proj2 (proj2 (verdict_by_sorted_fractions
    (45 # 100) (12 # 100) [50 # 100; 46 # 100; 2 # 100]
    0 1 (50 # 100) (46 # 100) [(2%nat, 2 # 100)] _))) _ _).
  - reflexivity.
  - unfold Qlt; simpl; lia.
  - unfold Qlt; simpl; lia.
Defined.

(** The other two scenarios of the contract. *)
Example scenario_selected :
  classify (45 # 100) (12 # 100) [80 # 100; 10 # 100; 5 # 100] = Single 0.
Proof. reflexivity. Qed.

Example scenario_none_marked :
  classify (45 # 100) (12 # 100) [30 # 100; 20 # 100] = NoneMarked.
Proof. reflexivity. Qed.

(** C7.  Mark detection is monotonic in its tunables.  Raising the fill
    threshold keeps a none-marked verdict none-marked, and whatever verdict
    it changes becomes none-marked; raising the minimum margin keeps an
    ambiguous verdict ambiguous, and whatever verdict it changes becomes
    ambiguous. *)
Theorem detection_monotonic
    (t t' m m' : Q) (fractions : list Q)
    (Ht : (t <= t')%Q) (Hm : (m <= m')%Q) :
  (classify t m fractions = NoneMarked -> classify t' m fractions = NoneMarked) /\
  (classify t' m fractions = classify t m fractions \/
   classify t' m fractions = NoneMarked) /\
  (classify t m fractions = AmbiguousMultiple ->
   classify t m' fractions = AmbiguousMultiple) /\
  (classify t m' fractions = classify t m fractions \/
   classify t m' fractions = AmbiguousMultiple).
Proof.
  unfold classify.
  destruct (sort_desc (enumerate fractions)) as [|[i top] rest]; simpl.
  { repeat split; auto. }
  assert (Hthr : Qlt_bool top t = true -> Qlt_bool top t' = true).
  { rewrite !Qlt_bool_iff. intros H. by eapply Qlt_le_trans. }
  assert (Hmar : forall d, Qlt_bool d m = true -> Qlt_bool d m' = true).
  { intros d. rewrite !Qlt_bool_iff. intros H. by eapply Qlt_le_trans. }
  destruct (Qlt_bool top t) eqn:E1.
  { rewrite (Hthr eq_refl). repeat split; auto. }
  destruct (Qlt_bool top t') eqn:E1'.
  - destruct rest as [|[j second] rest].
    + repeat split; auto; discriminate.
    + destruct (Qlt_bool (top - second) m) eqn:E2.
      * rewrite (Hmar _ E2). repeat split; auto; discriminate.
      * destruct (Qlt_bool (top - second) m'); repeat split; auto; discriminate.
  - destruct rest as [|[j second] rest].
    + repeat split; auto; discriminate.
    + destruct (Qlt_bool (top - second) m) eqn:E2.
      * rewrite (Hmar _ E2). repeat split; auto.
      * destruct (Qlt_bool (top - second) m'); repeat split; auto; discriminate.
Qed.

Lemma detection_monotonic_witness :
  (classify (45 # 100) (12 # 100) [30 # 100; 20 # 100] = NoneMarked ->
   classify (60 # 100) (12 # 100) [30 # 100; 20 # 100] = NoneMarked) /\
  (classify (60 # 100) (12 # 100) [30 # 100; 20 # 100]
     = classify (45 # 100) (12 # 100) [30 # 100; 20 # 100] \/
   classify (60 # 100) (12 # 100) [30 # 100; 20 # 100] = NoneMarked) /\
  (classify (45 # 100) (12 # 100) [30 # 100; 20 # 100] = AmbiguousMultiple ->
   classify (45 # 100) (20 # 100) [30 # 100; 20 # 100] = AmbiguousMultiple) /\
  (classify (45 # 100) (20 # 100) [30 # 100; 20 # 100]
     = classify (45 # 100) (12 # 100) [30 # 100; 20 # 100] \/
   classify (45 # 100) (20 # 100) [30 # 100; 20 # 100] = AmbiguousMultiple).
Proof.
  apply (detection_monotonic (45 # 100) (60 # 100) (12 # 100) (20 # 100)
           [30 # 100; 20 # 100]).
  - unfold Qle; simpl; lia.
  - unfold Qle; simpl; lia.
Defined.

(** Both directions of the monotonicity are strict on some sheet: a raised
    threshold unmarks a marked option, a raised margin makes a single
    option ambiguous. *)
Example raised_threshold_unmarks :
  classify (45 # 100) (12 # 100) [80 # 100; 10 # 100] = Single 0 /\
  classify (90 # 100) (12 # 100) [80 # 100; 10 # 100] = NoneMarked.
Proof. split; reflexivity. Qed.

Example raised_margin_blurs :
  classify (45 # 100) (12 # 100) [80 # 100; 60 # 100] = Single 0 /\
  classify (45 # 100) (30 # 100) [80 # 100; 60 # 100] = AmbiguousMultiple.
Proof. split; reflexivity. Qed.

End DetectFacts.

(* ===================================================================== *)
(** ** Results about the evaluation run                                   *)
(* ===================================================================== *)

Module AppFacts.
Import App.

Section Facts.
Context `{Services}.

Implicit Types (r : Run) (uf : UploadedFile) (st : State).
Implicit Types (files : list UploadedFile) (post : nat -> Payload -> exc unit).

Lemma elem_of_concat {A : Type} (x : A) (ls : list (list A)) :
  x ∈ concat ls <-> exists l, x ∈ l /\ l ∈ ls.
Proof.
  induction ls as [|l ls IH]; simpl.
  - split; [by intros ?%elem_of_nil|]. by intros (l & _ & ?%elem_of_nil).
  - rewrite elem_of_app, IH. split.
    + intros [Hx|(l' & Hx & Hl')].
      * exists l. split; [done|by left].
      * exists l'. split; [done|by right].
    + intros (l' & Hx & [->|Hl']%elem_of_cons); [by left|].
      right. by exists l'.
Qed.

(** *** What one pass of the loop does to the three variables *)

Lemma iteration_spec post r i uf st :
  iteration post r i uf st =
    mkState (results st ++ image_rows r uf)
            (detailed_sheets st ++ image_sheets r uf)
            (image_answers r uf (answers st)).
Proof.
  unfold iteration, try_except, body, save, image_rows, image_sheets,
    image_answers, bind, lift, ret, results_append, detailed_sheets_append,
    answers_assign.
  destruct st as [rs ds an]; simpl.
  destruct (predict r uf) as [a|msg]; simpl.
  2:{ by rewrite app_nil_r. }
  destruct (summary_row r uf a) as [row|msg]; simpl.
  2:{ by rewrite app_nil_r. }
  destruct (large_batch r); simpl.
  - destruct (save_to_db r && bool_decide (is_Some (key_loaded r))); simpl.
    + destruct import_requests as [[]|msg]; simpl.
      * destruct (post i (payload_of r uf row a)) as [[]|msg]; simpl;
          by rewrite app_nil_r.
      * by rewrite app_nil_r, <- app_assoc.
    + by rewrite app_nil_r.
  - destruct (image_sheet a) as [df|msg]; simpl.
    2:{ by rewrite app_nil_r, <- app_assoc. }
    destruct (save_to_db r && bool_decide (is_Some (key_loaded r))); simpl.
    + destruct import_requests as [[]|msg]; simpl.
      * by destruct (post i (payload_of r uf row a)) as [[]|msg].
      * by rewrite <- app_assoc.
    + done.
Qed.

Lemma loop_spec post r files : forall i st,
  loop post r i files st =
    mkState (results st ++ concat (image_rows r <$> files))
            (detailed_sheets st ++ concat (image_sheets r <$> files))
            (foldl (fun bound uf => image_answers r uf bound) (answers st) files).
Proof.
  induction files as [|uf files IH]; intros i st; simpl.
  - destruct st; simpl. by rewrite !app_nil_r.
  - rewrite IH, iteration_spec; simpl. by rewrite <- !app_assoc.
Qed.

Lemma evaluate_spec post r files :
  evaluate post r files =
    mkState (concat (image_rows r <$> files))
            (concat (image_sheets r <$> files))
            (foldl (fun bound uf => image_answers r uf bound) None files).
Proof. unfold evaluate. by rewrite loop_spec. Qed.

(** *** Records per image *)

(** An image contributes one or two records, the first being its summary
    row or its failure row. *)
Lemma image_rows_count r uf :
  (1 <= length (image_rows r uf) <= 2)%nat.
Proof.
  unfold image_rows.
  destruct (predict r uf) as [a|]; simpl; [|lia].
  destruct (summary_row r uf a) as [a0|]; simpl; [|lia].
  assert (Hsave : (1 <= length
            (if save_to_db r && bool_decide (is_Some (key_loaded r))
             then match import_requests with
                  | Ok _ => [a0]
                  | Raise msg => [a0; error_row uf msg]
                  end
             else [a0]) <= 2)%nat).
  { destruct (save_to_db r && _); simpl; [|lia].
    destruct import_requests; simpl; lia. }
  destruct (large_batch r); simpl; [done|].
  destruct (image_sheet a); simpl; [done|lia].
Qed.

(** A failure before the summary row is built is recorded as one failure
    row, filename plus reason. *)
Lemma early_failure_recorded r uf msg :
  predict r uf = Raise msg -> image_rows r uf = [error_row uf msg].
Proof. unfold image_rows. by intros ->. Qed.

(** A failure of an image never removes a record: the batch has at least as
    many records as images, and at most twice as many. *)
Lemma results_count post r files :
  (length files <= length (results (evaluate post r files)) <= 2 * length files)%nat.
Proof.
  rewrite evaluate_spec. unfold results.
  induction files as [|uf files IH]; [simpl; lia|].
  rewrite fmap_cons, concat_cons, length_app, length_cons.
  pose proof (image_rows_count r uf). lia.
Qed.

(** The records keep the order of the images. *)
Lemma results_in_order post r files1 files2 :
  results (evaluate post r (files1 ++ files2)) =
    results (evaluate post r files1) ++ results (evaluate post r files2).
Proof. rewrite !evaluate_spec; simpl. by rewrite fmap_app, concat_app. Qed.

(** With no late step (large batch mode, nothing saved) an image has exactly
    one record. *)
Lemma one_record_without_late_steps r uf :
  large_batch r = true -> save_to_db r = false ->
  length (image_rows r uf) = 1%nat.
Proof.
  intros Hl Hs. unfold image_rows. rewrite Hl, Hs; simpl.
  destruct (predict r uf); [|done]. by destruct (summary_row r uf a).
Qed.

(** *** The result post *)

(** C10.  An exception raised by the post of an image's result is swallowed:
    whatever the results API does, each pass of the loop leaves the same
    rows, sheets and answers, and so do the whole batch and the page. *)
Theorem post_outcome_irrelevant post1 post2 r files clicked :
  (forall i uf st, iteration post1 r i uf st = iteration post2 r i uf st) /\
  evaluate post1 r files = evaluate post2 r files /\
  main post1 r files clicked = main post2 r files clicked.
Proof.
  assert (He : forall fs, evaluate post1 r fs = evaluate post2 r fs).
  { intros fs. by rewrite !evaluate_spec. }
  split; [|split].
  - intros i uf st. by rewrite !iteration_spec.
  - apply He.
  - unfold main. destruct files as [|uf files]; [done|].
    destruct (cap (uf :: files)) as [warned fs]. by rewrite He.
Qed.

(** *** Re-running *)

(** What one image contributes does not depend on the loop: at any position
    of any batch, from any earlier state and whatever the results API does,
    the same image under the same run adds the same records and sheets and
    binds the same answers. *)
Lemma image_contribution_independent post1 post2 r uf i1 i2 st1 st2 files :
  drop (length (results st1)) (results (iteration post1 r i1 uf st1)) =
    drop (length (results st2)) (results (iteration post2 r i2 uf st2)) /\
  drop (length (detailed_sheets st1))
       (detailed_sheets (iteration post1 r i1 uf st1)) =
    drop (length (detailed_sheets st2))
         (detailed_sheets (iteration post2 r i2 uf st2)) /\
  (forall a, predict r uf = Ok a ->
     answers (iteration post1 r i1 uf st1) = Some a /\
     answers (iteration post2 r i2 uf st2) = Some a) /\
  evaluate post1 r files = evaluate post2 r files.
Proof.
  rewrite !iteration_spec; simpl. rewrite !drop_app_length.
  split; [done|]. split; [done|]. split.
  - intros a Ha. unfold image_answers. by rewrite Ha.
  - by rewrite !evaluate_spec.
Qed.

(** *** The cap on the batch *)

Lemma image_rows_nonempty r uf : image_rows r uf <> [].
Proof.
  pose proof (image_rows_count r uf) as Hc.
  destruct (image_rows r uf); simpl in Hc; [lia|done].
Qed.

(** C9.  With more than 500 uploaded files the warning shows and the batch
    is the first 500 files in upload order: the records are those of these
    500 images, each contributing at least one, in order, and the page does
    not depend on the files beyond the 500th. *)
Theorem only_first_500_evaluated post r uploaded_files clicked
    (Hmany : (500 < length uploaded_files)%nat) :
  warning (main post r uploaded_files clicked) = true /\
  evaluated (main post r uploaded_files clicked) = take 500 uploaded_files /\
  length (evaluated (main post r uploaded_files clicked)) = 500%nat /\
  (clicked = true ->
   exists st ov,
     outcome (main post r uploaded_files clicked) = Some (st, ov) /\
     st = evaluate post r (take 500 uploaded_files) /\
     results st = concat (image_rows r <$> take 500 uploaded_files) /\
     Forall (fun uf => image_rows r uf <> []) (take 500 uploaded_files)) /\
  (forall others,
     (500 < length others)%nat ->
     take 500 others = take 500 uploaded_files ->
     main post r others clicked = main post r uploaded_files clicked).
Proof.
  assert (Hmain : forall fs, (500 < length fs)%nat ->
            main post r fs clicked =
              mkPage true (take 500 fs)
                (if clicked
                 then Some (evaluate post r (take 500 fs),
                            overlay r (take 500 fs)
                              (evaluate post r (take 500 fs)))
                 else None)).
  { intros fs Hfs. unfold main, cap.
    destruct fs as [|uf fs]; [simpl in Hfs; lia|].
    apply Nat.ltb_lt in Hfs. by rewrite Hfs. }
  rewrite (Hmain _ Hmany); simpl.
  split; [done|]. split; [done|].
  split; [rewrite length_take; lia|]. split.
  - intros ->. eexists _, _. split; [done|]. split; [done|].
    split; [by rewrite evaluate_spec|].
    apply Forall_forall. intros uf _. apply image_rows_nonempty.
  - intros others Ho Heq. by rewrite (Hmain _ Ho), Heq.
Qed.

(** *** Template questions *)

Lemma insert_by_key_perm (q : Question Geometry) l :
  insert_by_key q l ≡ₚ q :: l.
Proof.
  induction l as [|q' l IH]; simpl; [done|].
  destruct (sort_key q <=? sort_key q'); [done|].
  rewrite IH. apply Permutation_swap.
Qed.

Lemma sorted_perm (l : list (Question Geometry)) : sorted l ≡ₚ l.
Proof.
  induction l as [|q l IH]; simpl; [done|].
  by rewrite insert_by_key_perm, IH.
Qed.

Lemma insert_by_key_ascending (q : Question Geometry) l :
  Sorted ascending l -> Sorted ascending (insert_by_key q l).
Proof.
  induction 1 as [|q' l Hl IH Hhd]; simpl.
  - repeat constructor.
  - destruct (sort_key q <=? sort_key q') eqn:E.
    + constructor; [by constructor|]. constructor.
      unfold ascending. lia.
    + constructor; [exact IH|].
      destruct l as [|q'' l]; simpl.
      * constructor. unfold ascending. lia.
      * destruct (sort_key q <=? sort_key q''); constructor.
        -- unfold ascending. lia.
        -- by inversion Hhd.
Qed.

Lemma sorted_ascending (l : list (Question Geometry)) : Sorted ascending (sorted l).
Proof.
  induction l as [|q l IH]; simpl; [constructor|].
  by apply insert_by_key_ascending.
Qed.

(** Stability: questions of equal key keep their template order. *)
Lemma insert_by_key_stable (k : Z) (q : Question Geometry) l :
  filter (fun q' => sort_key q' = k) (insert_by_key q l) =
  filter (fun q' => sort_key q' = k) (q :: l).
Proof.
  induction l as [|q' l IH]; simpl; [done|].
  destruct (sort_key q <=? sort_key q') eqn:E; [done|].
  rewrite (filter_cons _ q'), IH, !filter_cons.
  destruct (decide (sort_key q' = k)) as [Hq'|Hq']; [|done].
  destruct (decide (sort_key q = k)) as [Hq|Hq]; [lia|done].
Qed.

Lemma sorted_stable (k : Z) (l : list (Question Geometry)) :
  filter (fun q => sort_key q = k) (sorted l) = filter (fun q => sort_key q = k) l.
Proof.
  induction l as [|q l IH]; simpl; [done|].
  by rewrite insert_by_key_stable, !filter_cons, IH.
Qed.

(** C5.  In a template-guided run the questions handed to the detector, for
    every image, are the template's questions in ascending order of their
    ["index"] entry (a question without one counting as index 0, questions
    of equal index in template order). *)
Theorem template_questions_ascending r uf tf tpl
    (Htpl : tpl_file r = Some tf) (Hload : json_loads tf = Ok tpl) :
  exists qs,
    (forall np_img,
       detect_args r np_img = Ok (mkDetectArgs np_img qs (alignment_kwargs r))) /\
    predict r uf =
      (np_img ← preprocess uf;
       evaluate_by_questions np_img qs (alignment_kwargs r)) /\
    Sorted (fun q q' => default 0 (index q) <= default 0 (index q')) qs /\
    qs ≡ₚ default [] (questions tpl) /\
    (forall k, filter (fun q => default 0 (index q) = k) qs =
               filter (fun q => default 0 (index q) = k)
                      (default [] (questions tpl))).
Proof.
  exists (sorted (default [] (questions tpl))).
  assert (Hargs : forall np_img,
            detect_args r np_img =
              Ok (mkDetectArgs np_img (sorted (default [] (questions tpl)))
                               (alignment_kwargs r))).
  { intros np_img. unfold detect_args. rewrite Htpl, Hload. done. }
  split; [exact Hargs|]. split.
  - unfold predict. destruct (preprocess uf) as [np_img|msg]; [|done].
    simpl. by rewrite Hargs.
  - split.
    { exact (sorted_ascending (default [] (questions tpl))). }
    split; [apply sorted_perm|].
    intros k. apply (sorted_stable k).
Qed.

(** *** Runs without a key *)

Lemma fill_subjects_all_none ss (m : gmap string (option Score)) row :
  (forall s, s ∈ ss -> m !! s = Some None) -> fill_subjects ss m row = Ok row.
Proof.
  induction ss as [|s ss IH]; intros Hm; simpl; [done|].
  rewrite (Hm s) by (by left). apply IH. intros s' Hs'. apply Hm. by right.
Qed.

Lemma blank_scores_lookup ss s :
  s ∈ ss ->
  (list_to_map ((fun s => (s, None)) <$> ss) : gmap string (option Score)) !! s
    = Some None.
Proof.
  induction ss as [|s' ss IH]; intros Hs; [by apply elem_of_nil in Hs|].
  rewrite fmap_cons, list_to_map_cons, lookup_insert.
  destruct (decide (s' = s)) as [->|Hne]; [done|].
  apply IH. apply elem_of_cons in Hs as [->|Hs]; done.
Qed.

Lemma summary_row_no_key r uf a :
  key_map r = None -> summary_row r uf a = Ok (base_row r uf).
Proof.
  intros Hkey. unfold summary_row, scores, key_loaded. rewrite Hkey; simpl.
  rewrite fill_subjects_all_none; [done|]. apply blank_scores_lookup.
Qed.

Lemma base_row_scoreless r uf : scoreless (base_row r uf).
Proof.
  intros k x. unfold base_row.
  rewrite lookup_insert. destruct (decide ("filename" = k)); [done|].
  rewrite lookup_singleton. by destruct (decide ("Set" = k)).
Qed.

Lemma error_row_scoreless uf msg : scoreless (error_row uf msg).
Proof.
  intros k x. unfold error_row.
  rewrite lookup_insert. destruct (decide ("filename" = k)); [done|].
  rewrite lookup_singleton. by destruct (decide ("error" = k)).
Qed.

Lemma image_rows_no_key r uf row :
  key_map r = None -> row ∈ image_rows r uf ->
  row = base_row r uf \/ exists msg, row = error_row uf msg.
Proof.
  intros Hkey. unfold image_rows.
  destruct (predict r uf) as [a|msg].
  2:{ intros ->%list_elem_of_singleton. right. by exists msg. }
  rewrite (summary_row_no_key _ _ _ Hkey).
  assert (Hcases : forall l : list (gmap string value),
            (l = [base_row r uf] \/
             exists msg, l = [base_row r uf; error_row uf msg]) ->
            row ∈ l ->
            row = base_row r uf \/ exists msg, row = error_row uf msg).
  { intros l [->|[msg ->]] Hin.
    - apply list_elem_of_singleton in Hin. by left.
    - apply elem_of_cons in Hin as [->|Hin]; [by left|].
      apply list_elem_of_singleton in Hin. right. by exists msg. }
  apply Hcases.
  destruct (if large_batch r then _ else _) as [[]|msg]; [|right; by exists msg].
  destruct (save_to_db r && _); [|by left].
  destruct import_requests as [[]|msg]; [by left|right; by exists msg].
Qed.

(** C6.  In a run without an answer key scoring is skipped: every record of
    the batch is an image's filename and set label, or its filename and
    failure reason, with no subject score and no total.  Detection still
    runs: an image that decodes and whose questions resolve is handed to the
    detector, in the template-guided and in the grid-estimated strategy
    alike, and when the detector returns, its answers are bound, the image
    gets its score-less record and (outside large batch mode) its answer
    sheet. *)
Theorem no_key_skips_scoring_only post r files (Hkey : key_map r = None) :
  Forall (fun row =>
            (exists uf, uf ∈ files /\
               (row = base_row r uf \/ exists msg, row = error_row uf msg)) /\
            scoreless row /\ row !! "total" = None)
         (results (evaluate post r files)) /\
  (forall uf a i st,
     predict r uf = Ok a ->
     answers (iteration post r i uf st) = Some a /\
     (exists late, results (iteration post r i uf st)
                     = results st ++ base_row r uf :: late) /\
     (forall df, large_batch r = false -> image_sheet a = Ok df ->
        detailed_sheets (iteration post r i uf st)
          = detailed_sheets st ++ [(name uf, df)])) /\
  (forall uf i st image oriented rot np_img a,
     open_rgb uf = Ok image ->
     detect_orientation image = Ok (oriented, rot) ->
     rectify_perspective oriented = Ok np_img ->
     match tpl_file r with
     | Some tf =>
         exists tpl,
           json_loads tf = Ok tpl /\
           evaluate_by_questions np_img (sorted (default [] (questions tpl)))
             {[ "scale_x" := scale_x r; "scale_y" := scale_y r;
                "offset_x" := offset_x r; "offset_y" := offset_y r ]} = Ok a
     | None =>
         exists qs,
           estimate_grid_rois (shape np_img).2 (shape np_img).1 = Ok qs /\
           evaluate_by_questions np_img qs ∅ = Ok a
     end ->
     answers (iteration post r i uf st) = Some a /\
     exists late, results (iteration post r i uf st)
                    = results st ++ base_row r uf :: late).
Proof.
  assert (Hrun : forall uf a i st,
            predict r uf = Ok a ->
            answers (iteration post r i uf st) = Some a /\
            (exists late, results (iteration post r i uf st)
                            = results st ++ base_row r uf :: late) /\
            (forall df, large_batch r = false -> image_sheet a = Ok df ->
               detailed_sheets (iteration post r i uf st)
                 = detailed_sheets st ++ [(name uf, df)])).
  { intros uf a i st Ha. rewrite iteration_spec; simpl.
    unfold image_answers, image_rows, image_sheets.
    rewrite Ha, (summary_row_no_key _ _ _ Hkey).
    split; [done|]. split.
    + destruct (if large_batch r then _ else _) as [[]|msg]; [|by eexists].
      destruct (save_to_db r && _); [|by eexists].
      destruct import_requests as [[]|msg]; by eexists.
    + intros df Hl Hdf. by rewrite Hl, Hdf. }
  split; [|split; [exact Hrun|]].
  - rewrite evaluate_spec; simpl. apply Forall_forall. intros row Hrow.
    apply elem_of_concat in Hrow as (rows & Hrow & Hrows).
    apply list_elem_of_fmap in Hrows as (uf & -> & Huf).
    destruct (image_rows_no_key _ _ _ Hkey Hrow) as [->|[msg ->]].
    + split; [exists uf; split; [done|by left]|].
      split; [apply base_row_scoreless|done].
    + split; [exists uf; split; [done|right; by exists msg]|].
      split; [apply error_row_scoreless|done].
  - intros uf i st image oriented rot np_img a Hopen Horient Hrect Hdetect.
    assert (Ha : predict r uf = Ok a).
    { unfold predict, preprocess. rewrite Hopen; simpl.
      rewrite Horient; simpl. rewrite Hrect; simpl.
      unfold detect_args. destruct (tpl_file r) as [tf|].
      - destruct Hdetect as (tpl & -> & Hdet); simpl. exact Hdet.
      - destruct (shape np_img) as [h w]; simpl in *.
        destruct Hdetect as (qs & -> & Hdet); simpl. exact Hdet. }
    destruct (Hrun uf a i st Ha) as (Hans & Hrows & _). by split.
Qed.

(** *** What the loop does not read *)

(** The keyword arguments of a detector call are the four alignment values
    or none at all. *)
Lemma detect_kwargs r np_img args :
  detect_args r np_img = Ok args ->
  da_kwargs args = alignment_kwargs r \/ da_kwargs args = ∅.
Proof.
  unfold detect_args. destruct (tpl_file r) as [tf|].
  - destruct (json_loads tf); simpl; [|done]. intros [= <-]. by left.
  - destruct (shape np_img) as [h w].
    destruct (estimate_grid_rois w h); simpl; [|done]. intros [= <-]. by right.
Qed.

(** Moving the two detection sliders changes no detector call and nothing
    the batch produces. *)
Lemma tunables_unread post r files t m :
  (forall np_img, detect_args (with_tunables t m r) np_img = detect_args r np_img) /\
  (forall uf, predict (with_tunables t m r) uf = predict r uf) /\
  evaluate post (with_tunables t m r) files = evaluate post r files.
Proof.
  split; [done|]. split; [done|].
  rewrite !evaluate_spec. done.
Qed.

(** Ticking the overlay checkbox changes nothing the batch produces. *)
Lemma overlay_flag_unread post r files b :
  evaluate post (with_overlay b r) files = evaluate post r files.
Proof. rewrite !evaluate_spec. done. Qed.

(** After the loop [answers] is bound to the answers of the last image
    whose detection returned. *)
Lemma answers_after_batch post r files uf a :
  predict r uf = Ok a ->
  answers (evaluate post r (files ++ [uf])) = Some a.
Proof.
  intros Ha. rewrite evaluate_spec; simpl.
  rewrite foldl_snoc. unfold image_answers at 1. by rewrite Ha.
Qed.

Lemma answers_after_failed_image post r files uf msg :
  predict r uf = Raise msg ->
  answers (evaluate post r (files ++ [uf])) = answers (evaluate post r files).
Proof.
  intros Ha. rewrite !evaluate_spec; simpl.
  rewrite foldl_snoc. unfold image_answers at 1. by rewrite Ha.
Qed.

End Facts.

(** *** The script run in the sample world *)

Import Sample.

(** C2.  A failure after the summary row was appended leaves two records
    for one image, the summary row and a failure row: here a one-image
    batch whose per-image sheet cannot be built, and a one-image batch
    saved to the database without the [requests] package. *)
Theorem late_failure_leaves_two_records :
  results (evaluate post_up (run_plain true false) [file_1]) =
    [ base_row (run_plain true false) file_1;
      error_row file_1 "All arrays must be of the same length" ] /\
  results (evaluate post_up (run_saving false) [file_1]) =
    [ <["total" := @VScore (world false true) 1%nat]>
        (<["Maths" := @VScore (world false true) 1%nat]>
           (base_row (run_saving false) file_1));
      error_row file_1 "No module named 'requests'" ] /\
  length (results (evaluate post_up (run_plain true false) [file_1])) = 2%nat.
Proof. split; [|split]; reflexivity. Qed.

(** The scenario of the contract: three images, the second unreadable. *)
Example second_image_fails_to_decode :
  results (evaluate post_up (run_plain true true) [file_1; file_bad; file_2]) =
    [ base_row (run_plain true true) file_1;
      error_row file_bad "cannot identify image file";
      base_row (run_plain true true) file_2 ].
Proof. reflexivity. Qed.

(** C3.  The fill threshold and minimum margin of the run never reach the
    detector: its keyword arguments are the alignment values or none, and
    for every collaborator and every slider position the detector calls and
    the batch are the same.  With the threshold slider at 0.90 a detector
    following the contract still marks option 0 of a question filled at
    {0.80, 0.10, 0.05}, where the run's threshold gives none-marked. *)
Theorem run_tunables_never_reach_detector :
  (forall (S : Services) (post : nat -> Payload -> exc unit) (r : Run)
          (files : list UploadedFile) (t m : Q),
     (forall np_img args, detect_args r np_img = Ok args ->
        da_kwargs args = alignment_kwargs r \/ da_kwargs args = ∅) /\
     (forall np_img,
        detect_args (with_tunables t m r) np_img = detect_args r np_img) /\
     (forall uf, predict (with_tunables t m r) uf = predict r uf) /\
     evaluate post (with_tunables t m r) files = evaluate post r files) /\
  fill_threshold (with_tunables (90 # 100) (12 # 100) (run_plain true true))
    = 90 # 100 /\
  answers (evaluate post_up
             (with_tunables (90 # 100) (12 # 100) (run_plain true true))
             [file_1])
    = Some [Detect.Single 0] /\
  Detect.classify_all (90 # 100) (12 # 100) sheet_1 = [Detect.NoneMarked].
Proof.
  split.
  - intros S post r files t m.
    split; [apply detect_kwargs|]. apply tunables_unread.
  - split; [reflexivity|]. split; reflexivity.
Qed.

(** C4.  The overlay of the first image is drawn from the first image's
    rectified pixels and the template, but with the answers bound when the
    loop ended, those of the last image whose detection returned: in a
    two-image batch the first sheet is drawn with the second sheet's
    answers.  Asking for the overlay changes nothing the batch produces. *)
Theorem overlay_drawn_with_last_answers :
  (forall (S : Services) (post : nat -> Payload -> exc unit) (r : Run)
          (files : list UploadedFile) (b : bool),
     evaluate post (with_overlay b r) files = evaluate post r files) /\
  (forall (S : Services) (post : nat -> Payload -> exc unit) (r : Run)
          (files : list UploadedFile) (uf : UploadedFile) (a : Answers),
     predict r uf = Ok a ->
     answers (evaluate post r (files ++ [uf])) = Some a) /\
  predict run_overlay file_1 = Ok [Detect.Single 0] /\
  predict run_overlay file_2 = Ok [Detect.Single 1] /\
  overlay run_overlay [file_1; file_2]
          (evaluate post_up run_overlay [file_1; file_2])
    = @OverlayShown (world true true) (sheet_1, [Detect.Single 1]).
Proof.
  split; [intros; apply overlay_flag_unread|].
  split; [intros; by apply answers_after_batch|].
  repeat split; reflexivity.
Qed.

(** With a single image the overlay does show that image's answers. *)
Example overlay_of_single_image :
  overlay run_overlay [file_1] (evaluate post_up run_overlay [file_1])
    = @OverlayShown (world true true) (sheet_1, [Detect.Single 0]).
Proof. reflexivity. Qed.

(** A post that fails leaves the rows of a saved batch as they are. *)
Example rows_with_api_down :
  results (evaluate post_down (run_saving true) [file_1; file_2]) =
  results (evaluate post_up (run_saving true) [file_1; file_2]) /\
  length (results (evaluate post_down (run_saving true) [file_1; file_2])) = 2%nat.
Proof. split; reflexivity. Qed.

Lemma template_questions_ascending_witness :
  exists qs : list (Question unit),
    Sorted (fun q q' => default 0 (index q) <= default 0 (index q')) qs /\
    qs ≡ₚ default [] (questions template).
Proof.
  destruct (@template_questions_ascending (world true true)
              (run_plain true true) file_1 "{...}" template eq_refl eq_refl)
    as (qs & _ & _ & Hsorted & Hperm & _).
  exists qs. split; [exact Hsorted|exact Hperm].
Defined.

(** The sample template lists its questions as 2, none, 1; the detector
    receives them as none, 1, 2. *)
Example sample_template_order :
  detect_args (run_plain true true) sheet_1
    = Ok (@mkDetectArgs (world true true) sheet_1
            [mkQuestion None tt; mkQuestion (Some 1) tt; mkQuestion (Some 2) tt]
            (alignment_kwargs (run_plain true true))).
Proof. reflexivity. Qed.

Lemma no_key_skips_scoring_only_witness :
  Forall (fun row =>
            (exists uf, uf ∈ [file_1; file_bad] /\
               (row = base_row (run_plain true true) uf \/
                exists msg, row = error_row uf msg)) /\
            scoreless row /\ row !! "total" = None)
         (results (evaluate post_up (run_plain true true) [file_1; file_bad])) /\
  answers (iteration post_up (run_plain true true) 1 file_1 initial)
    = Some [Detect.Single 0].
Proof.
  pose proof (@no_key_skips_scoring_only (world true true) post_up
                (run_plain true true) [file_1; file_bad] eq_refl)
    as (Hrows & _ & Hdetect).
  split; [exact Hrows|].
  refine (proj1 (Hdetect file_1 1%nat initial sheet_1 sheet_1 0 sheet_1
                   [Detect.Single 0] eq_refl eq_refl eq_refl _)).
  exists template. split; reflexivity.
Defined.

(** The same without a template: the grid-estimated questions go to the
    detector and its answers are bound, key or no key. *)
Example detection_runs_without_key_or_template :
  answers (iteration post_up (run_saving true) 1 file_1 initial)
    = Some [Detect.Single 0] /\
  answers (iteration post_up
             (@mkRun (world true true) None None "A" None
                     (45 # 100) (12 # 100) 1 1 0 0 false false false)
             1 file_1 initial)
    = Some [Detect.Single 0].
Proof. split; reflexivity. Qed.

Lemma only_first_500_evaluated_witness :
  warning (main post_up (run_plain true true) (replicate 501 file_1) true) = true /\
  evaluated (main post_up (run_plain true true) (replicate 501 file_1) true)
    = take 500 (replicate 501 file_1).
Proof.
  assert (Hmany : (500 < length (replicate 501 file_1))%nat).
  { rewrite length_replicate. lia. }
  pose proof (@only_first_500_evaluated (world true true) post_up
                (run_plain true true) (replicate 501 file_1) true Hmany)
    as (Hw & He & _).
  split; [exact Hw|exact He].
Defined.

End AppFacts.

(* ===================================================================== *)
(** ** Results about the rest of the page                                 *)
(* ===================================================================== *)

Module PageFacts.
Import App Page AppFacts.

Section Facts.
Context `{Services}.

Implicit Types (r : Run) (uf : UploadedFile) (st : State).
Implicit Types (files : list UploadedFile) (post : nat -> Payload -> exc unit).
Implicit Types (row : gmap string value) (m : gmap string (option Score)).

(** *** The cap and the status row *)

(** X1.  The batch is the first min(n, 500) uploads, the warning shows
    exactly above 500, and the "Images selected" metric and the count on
    the Evaluate button are both the size of the capped batch, which is
    also what [main] evaluates. *)
Theorem status_row_counts_capped_batch post r uploaded_files clicked :
  length (cap uploaded_files).2 = (length uploaded_files `min` 500)%nat /\
  ((cap uploaded_files).1 = true <-> (500 < length uploaded_files)%nat) /\
  evaluated (main post r uploaded_files clicked) = (cap uploaded_files).2 /\
  (forall metrics n,
     status_row r uploaded_files = Some (metrics, n) ->
     images_selected metrics = (length uploaded_files `min` 500)%nat /\
     n = (length uploaded_files `min` 500)%nat /\
     (0 < n)%nat).
Proof.
  assert (Hlen : length (cap uploaded_files).2
                 = (length uploaded_files `min` 500)%nat).
  { unfold cap. destruct (500 <? length uploaded_files)%nat eqn:E; simpl.
    - apply Nat.ltb_lt in E. rewrite length_take. lia.
    - apply Nat.ltb_ge in E. lia. }
  split; [exact Hlen|]. split; [|split].
  - unfold cap. destruct (500 <? length uploaded_files)%nat eqn:E; simpl.
    + apply Nat.ltb_lt in E. done.
    + apply Nat.ltb_ge in E. split; [done|lia].
  - unfold main. destruct uploaded_files as [|uf fs]; [done|].
    by destruct (cap (uf :: fs)).
  - intros metrics n. unfold status_row.
    destruct uploaded_files as [|uf fs]; [done|]. intros [= <- <-].
    unfold _status_metrics; simpl images_selected.
    assert (Hpos : (0 < length (uf :: fs) `min` 500)%nat) by (simpl; lia).
    destruct (cap (uf :: fs)).2 as [|uf' fs']; simpl in *; lia.
Qed.

(** *** Keys that count as no key *)

Lemma summary_row_unloaded r uf a :
  key_loaded r = None -> summary_row r uf a = Ok (base_row r uf).
Proof.
  intros Hkey. unfold summary_row, scores. rewrite Hkey; simpl.
  rewrite fill_subjects_all_none; [done|]. apply blank_scores_lookup.
Qed.

Lemma image_rows_unloaded r uf row :
  key_loaded r = None -> row ∈ image_rows r uf ->
  row = base_row r uf \/ exists msg, row = error_row uf msg.
Proof.
  intros Hkey. unfold image_rows.
  destruct (predict r uf) as [a|msg].
  2:{ intros ->%list_elem_of_singleton. right. by exists msg. }
  rewrite (summary_row_unloaded _ _ _ Hkey), Hkey.
  rewrite andb_false_r.
  destruct (if large_batch r then _ else _) as [[]|msg].
  - intros ->%list_elem_of_singleton. by left.
  - intros [->|Hin]%elem_of_cons; [by left|].
    apply list_elem_of_singleton in Hin. right. by exists msg.
Qed.

(** X2.  The status row and the loop test the key for truth, not for
    presence.  A key that is absent or falsy (one that parsed to an empty
    mapping) counts as no key: the "Answer key" metric reads "Not loaded"
    and every record of the batch is a bare summary row (filename and set
    label) or a failure row, without any score or total. *)
Theorem falsy_key_is_no_key post r files tpl
    (Hkey : key_loaded r = None) :
  answer_key (_status_metrics files (key_map r) tpl) = "Not loaded" /\
  Forall (fun row =>
            (exists uf, uf ∈ files /\
               (row = base_row r uf \/ exists msg, row = error_row uf msg)) /\
            scoreless row /\ row !! "total" = None)
         (results (evaluate post r files)).
Proof.
  split.
  - unfold _status_metrics, key_loaded in *; simpl.
    destruct (key_map r) as [km|]; [|done]. by destruct (key_truthy km).
  - rewrite evaluate_spec; simpl. apply Forall_forall. intros row Hrow.
    apply elem_of_concat in Hrow as (rows & Hrow & Hrows).
    apply list_elem_of_fmap in Hrows as (uf & -> & Huf).
    destruct (image_rows_unloaded _ _ _ Hkey Hrow) as [->|[msg ->]].
    + split; [exists uf; split; [done|by left]|].
      split; [apply base_row_scoreless|done].
    + split; [exists uf; split; [done|right; by exists msg]|].
      split; [apply error_row_scoreless|done].
Qed.

Lemma metric_loaded_iff r files tpl :
  answer_key (_status_metrics files (key_map r) tpl) = "Loaded"
    <-> is_Some (key_loaded r).
Proof.
  unfold _status_metrics, key_loaded; simpl.
  destruct (key_map r) as [km|]; [destruct (key_truthy km)|];
    split; try done; intros [? ?]; done.
Qed.

(** *** The cells of a scored row *)

Lemma fill_subjects_lookup ss m row row' k :
  fill_subjects ss m row = Ok row' ->
  row' !! k =
    match (if decide (k ∈ ss) then m !! k else None) with
    | Some (Some x) => Some (VScore x)
    | _ => row !! k
    end.
Proof.
  revert row. induction ss as [|s ss IH]; intros row; simpl.
  - intros [= <-]. by destruct (decide (k ∈ [])) as [?%elem_of_nil|].
  - assert (Hcons : k ∈ s :: ss <-> k = s \/ k ∈ ss) by apply elem_of_cons.
    destruct (m !! s) as [[x|]|] eqn:Hs; [| |done]; intros Hfill;
      rewrite (IH _ Hfill);
      destruct (decide (k ∈ s :: ss)) as [Hin|Hout];
      destruct (decide (k ∈ ss)) as [Hin'|Hout'];
      destruct (decide (k = s)) as [->|Hne];
      rewrite ?Hs, ?lookup_insert_eq, ?lookup_insert_ne by done;
      try done; try (exfalso; tauto).
Qed.

Lemma fill_subjects_total ss m row :
  (forall s, s ∈ ss -> is_Some (m !! s)) ->
  exists row', fill_subjects ss m row = Ok row'.
Proof.
  revert row. induction ss as [|s ss IH]; intros row Hall; simpl.
  - by eexists.
  - destruct (Hall s) as [[x|] Hs]; [by left| |]; rewrite Hs;
      apply IH; intros s' Hs'; apply Hall; by right.
Qed.

(** X3.  With a key loaded and a scorer that reports every subject, the
    summary row is built: a subject with a score shows it, a subject whose
    score is [None] has no cell, the total shows when it is not [None],
    and filename and set label are kept. *)
Theorem scored_row_cells r uf a km m t
    (Hkey : key_loaded r = Some km)
    (Hscores : compute_scores_from_answers a km = Ok (m, t))
    (Hall : forall s, s ∈ subjects -> is_Some (m !! s)) :
  exists row,
    summary_row r uf a = Ok row /\
    (forall s x, s ∈ subjects -> s <> "total" ->
       m !! s = Some (Some x) -> row !! s = Some (VScore x)) /\
    (forall s, s ∈ subjects -> m !! s = Some None ->
       s <> "filename" -> s <> "Set" -> s <> "total" -> row !! s = None) /\
    (forall x, t = Some x -> row !! "total" = Some (VScore x)) /\
    (t = None -> "total" ∉ subjects -> row !! "total" = None) /\
    ("filename" ∉ subjects -> row !! "filename" = Some (VStr (name uf))) /\
    ("Set" ∉ subjects -> row !! "Set" = Some (VStr (set_label r))).
Proof.
  destruct (fill_subjects_total subjects m (base_row r uf) Hall) as [row0 Hfill].
  pose proof (fun k => fill_subjects_lookup _ _ _ _ k Hfill) as Hlook.
  exists (match t with Some x => <["total" := VScore x]> row0 | None => row0 end).
  split.
  { unfold summary_row, scores. rewrite Hkey, Hscores; simpl. by rewrite Hfill. }
  assert (Hother : forall k, k <> "total" ->
            (match t with Some x => <["total" := VScore x]> row0 | None => row0 end)
              !! k = row0 !! k).
  { intros k Hk. destruct t; [by rewrite lookup_insert_ne|done]. }
  repeat split.
  - intros s x Hs Hne Hm. rewrite Hother, Hlook by done.
    by rewrite decide_True, Hm.
  - intros s Hs Hm Hf HS Ht. rewrite Hother, Hlook by done.
    rewrite decide_True, Hm by done. unfold base_row.
    rewrite lookup_insert_ne, lookup_singleton_ne; done.
  - intros x ->. by rewrite lookup_insert_eq.
  - intros -> Hnot. rewrite Hlook, decide_False by done. done.
  - intros Hnot. rewrite Hother, Hlook, decide_False by done.
    unfold base_row. by rewrite lookup_insert_eq.
  - intros Hnot. rewrite Hother, Hlook, decide_False by done.
    unfold base_row. by rewrite lookup_insert_ne, lookup_singleton_eq.
Qed.

(** *** A scorer that omits a subject *)

Lemma fill_subjects_missing pre s rest m row :
  (forall s', s' ∈ pre -> is_Some (m !! s')) ->
  m !! s = None ->
  fill_subjects (pre ++ s :: rest) m row = Raise ("'" +:+ s +:+ "'").
Proof.
  revert row. induction pre as [|s0 pre IH]; intros row Hpre Hs; simpl.
  - by rewrite Hs.
  - destruct (Hpre s0) as [[x|] Hs0]; [by left| |]; rewrite Hs0;
      apply IH; try done; intros s' Hs'; apply Hpre; by right.
Qed.

(** X4.  When the scorer's per-subject dictionary lacks a configured
    subject, the image gets no summary row: its only record is a failure
    row whose reason is the quoted name of the first missing subject, it
    gets no sheet, and [answers] is bound to its answers all the same. *)
Theorem missing_subject_is_failure post r i uf st a km m t pre s rest
    (Hpredict : predict r uf = Ok a)
    (Hkey : key_loaded r = Some km)
    (Hscores : compute_scores_from_answers a km = Ok (m, t))
    (Hsubjects : subjects = pre ++ s :: rest)
    (Hpre : forall s', s' ∈ pre -> is_Some (m !! s'))
    (Hmissing : m !! s = None) :
  results (iteration post r i uf st)
    = results st ++ [error_row uf ("'" +:+ s +:+ "'")] /\
  detailed_sheets (iteration post r i uf st) = detailed_sheets st /\
  answers (iteration post r i uf st) = Some a.
Proof.
  assert (Hrow : summary_row r uf a = Raise ("'" +:+ s +:+ "'")).
  { unfold summary_row, scores. rewrite Hkey, Hscores; simpl.
    rewrite Hsubjects, fill_subjects_missing; done. }
  rewrite iteration_spec; simpl.
  unfold image_rows, image_sheets, image_answers.
  rewrite Hpredict, Hrow. by rewrite app_nil_r.
Qed.

(** *** The posted payload *)

Lemma row_subjects_lookup row s :
  row_subjects row !! s = if decide (s ∈ subjects) then row !! s else None.
Proof.
  unfold row_subjects.
  assert (G : forall ss (d : gmap string value),
            foldl (fun d s => match row !! s with
                              | Some v => <[s := v]> d
                              | None => d
                              end) d ss !! s
            = if decide (s ∈ ss)
              then match row !! s with Some v => Some v | None => d !! s end
              else d !! s).
  { induction ss as [|s0 ss IH]; intros d; simpl.
    - by destruct (decide (s ∈ [])) as [?%elem_of_nil|].
    - assert (Hcons : s ∈ s0 :: ss <-> s = s0 \/ s ∈ ss) by apply elem_of_cons.
      rewrite IH.
      destruct (decide (s ∈ s0 :: ss)) as [Hin|Hout];
        destruct (decide (s ∈ ss)) as [Hin'|Hout'];
        destruct (decide (s = s0)) as [->|Hne];
        try (exfalso; tauto);
        destruct (row !! s0) as [v0|] eqn:E0;
        rewrite ?lookup_insert_eq, ?lookup_insert_ne by done;
        try done; by rewrite ?E0. }
  rewrite G. destruct (decide (s ∈ subjects)); [|done].
  by destruct (row !! s).
Qed.

(** X5.  The payload posted for an image carries, per subject, exactly the
    subject cells of its summary row (nothing for a subject without a cell,
    nothing for any other column), the row's total or 0 when the row has
    none, and the image's answers. *)
Theorem payload_mirrors_row r uf row a s :
  per_subject (payload_of r uf row a) !! s
    = (if decide (s ∈ subjects) then row !! s else None) /\
  (forall v, row !! "total" = Some v -> total (payload_of r uf row a) = v) /\
  (row !! "total" = None -> total (payload_of r uf row a) = VInt 0) /\
  details (payload_of r uf row a) = a.
Proof.
  unfold payload_of; simpl. split; [apply row_subjects_lookup|].
  split; [by intros v ->|]. split; [by intros ->|done].
Qed.

(** *** Batches compose *)

(** X6.  Evaluating a batch is evaluating its parts in turn: the records
    and the per-image sheets of [files1 ++ files2] are those of [files1]
    followed by those of [files2], whatever happened in [files1]. *)
Theorem batch_splits post r files1 files2 :
  results (evaluate post r (files1 ++ files2))
    = results (evaluate post r files1) ++ results (evaluate post r files2) /\
  detailed_sheets (evaluate post r (files1 ++ files2))
    = detailed_sheets (evaluate post r files1)
        ++ detailed_sheets (evaluate post r files2).
Proof. rewrite !evaluate_spec; simpl. by rewrite !fmap_app, !concat_app. Qed.

(** *** Large batch mode *)

Lemma image_sheets_large r uf : large_batch r = true -> image_sheets r uf = [].
Proof.
  intros Hl. unfold image_sheets. rewrite Hl.
  destruct (predict r uf) as [a|]; [|done]. by destruct (summary_row r uf a).
Qed.

Lemma concat_all_nil {A B : Type} (f : A -> list B) (l : list A) :
  (forall x, f x = []) -> concat (f <$> l) = [].
Proof.
  intros Hf. induction l as [|x l IH]; [done|].
  by rewrite fmap_cons, concat_cons, Hf, IH.
Qed.

(** X7.  In large batch mode with nothing saved to the database, a batch
    yields exactly one record per image. *)
Theorem one_record_per_image_large_unsaved post r files
    (Hlarge : large_batch r = true) (Hsave : save_to_db r = false) :
  length (results (evaluate post r files)) = length files.
Proof.
  rewrite evaluate_spec. unfold results.
  induction files as [|uf files IH]; [done|].
  rewrite fmap_cons, concat_cons, length_app, length_cons, IH.
  by rewrite (one_record_without_late_steps r uf Hlarge Hsave).
Qed.

Section Workbook.
(** The Excel writer of the Downloads tab. *)
Variable Writer : Type.
Variable ExcelWriter : exc Writer.
Variable to_excel : Sheet -> string -> Writer -> exc Writer.
Variable first_28 : string -> string.

(** X8.  In large batch mode the loop builds no per-image sheet, so the
    downloaded workbook is the Summary sheet alone: the writer receives the
    exported table under the title "Summary" and nothing else. *)
Theorem large_batch_workbook_is_summary post r files
    (Hlarge : large_batch r = true) :
  detailed_sheets (evaluate post r files) = [] /\
  workbook Writer ExcelWriter to_excel first_28 r (evaluate post r files)
    = (writer ← ExcelWriter;
       to_excel (SummarySheet (df_for_export (results (evaluate post r files))))
                "Summary" writer).
Proof.
  split.
  - rewrite evaluate_spec; simpl.
    apply concat_all_nil. intros uf. by apply image_sheets_large.
  - unfold workbook. rewrite Hlarge.
    destruct ExcelWriter as [writer|msg]; [simpl|done].
    by destruct (to_excel _ _ writer).
Qed.

End Workbook.

(** *** Per-image sheets *)

(** X9.  Outside large batch mode, every per-image sheet belongs to an
    uploaded image whose detection returned and whose summary row is among
    the records, and there is at most one sheet per image. *)
Theorem sheets_belong_to_summarised_images post r files
    (Hsmall : large_batch r = false) :
  (forall n df, (n, df) ∈ detailed_sheets (evaluate post r files) ->
     exists uf a row,
       uf ∈ files /\ n = name uf /\ predict r uf = Ok a /\
       summary_row r uf a = Ok row /\ image_sheet a = Ok df /\
       row ∈ results (evaluate post r files)) /\
  (length (detailed_sheets (evaluate post r files)) <= length files)%nat.
Proof.
  rewrite evaluate_spec; simpl. split.
  - intros n df Hin.
    apply elem_of_concat in Hin as (l & Hin & Hl).
    apply list_elem_of_fmap in Hl as (uf & -> & Huf).
    unfold image_sheets in Hin.
    destruct (predict r uf) as [a|] eqn:Ha; [|by apply elem_of_nil in Hin].
    destruct (summary_row r uf a) as [row|] eqn:Hrow;
      [|by apply elem_of_nil in Hin].
    rewrite Hsmall in Hin.
    destruct (image_sheet a) as [df'|] eqn:Hdf; [|by apply elem_of_nil in Hin].
    apply list_elem_of_singleton in Hin as [= -> ->].
    exists uf, a, row. repeat split; try done.
    apply elem_of_concat. exists (image_rows r uf). split.
    + unfold image_rows. rewrite Ha, Hrow, Hsmall, Hdf; simpl.
      destruct (save_to_db r && _); [|by left].
      destruct import_requests; by left.
    + apply list_elem_of_fmap. by exists uf.
  - induction files as [|uf files IH]; [done|].
    rewrite fmap_cons, concat_cons, length_app, length_cons.
    assert (length (image_sheets r uf) <= 1)%nat; [|lia].
    unfold image_sheets.
    destruct (predict r uf) as [a|]; [|simpl; lia].
    destruct (summary_row r uf a); [|simpl; lia].
    destruct (large_batch r); [simpl; lia|].
    destruct (image_sheet a); simpl; lia.
Qed.

(** *** The overlay when detection never returned *)

Lemma answers_unbound post r files :
  (forall uf, uf ∈ files -> exists msg, predict r uf = Raise msg) ->
  answers (evaluate post r files) = None.
Proof.
  intros Hall. rewrite evaluate_spec; simpl.
  induction files as [|uf files IH] using rev_ind; [done|].
  rewrite foldl_snoc. unfold image_answers at 1.
  destruct (Hall uf) as [msg ->]; [apply elem_of_app; right; by left|].
  apply IH. intros uf' Huf'. apply Hall. apply elem_of_app. by left.
Qed.

(** X10.  When detection returned for no image of the batch, the name
    [answers] is never bound and no overlay is ever shown; if the first
    image can be preprocessed and the template decodes, the page says that
    the name is not defined. *)
Theorem no_overlay_without_answers post r files
    (Hfailed : forall uf, uf ∈ files -> exists msg, predict r uf = Raise msg) :
  answers (evaluate post r files) = None /\
  (forall o, overlay r files (evaluate post r files) <> OverlayShown o) /\
  (forall tf tpl first others np_first,
     tpl_file r = Some tf -> files = first :: others ->
     show_overlay r = true -> large_batch r = false ->
     json_loads tf = Ok tpl -> preprocess first = Ok np_first ->
     overlay r files (evaluate post r files)
       = OverlayInfo "Could not render overlay: name 'answers' is not defined").
Proof.
  pose proof (answers_unbound post r files Hfailed) as Hnone.
  split; [exact Hnone|]. split.
  - intros o. unfold overlay.
    destruct (tpl_file r) as [tf|]; [|done].
    destruct files as [|first others]; [done|].
    destruct (show_overlay r && negb (large_batch r)); [|done].
    destruct (json_loads tf) as [tpl|]; [|done].
    unfold render_overlay. rewrite Hnone.
    by destruct (preprocess first).
  - intros tf tpl first others np_first Htpl -> Hshow Hlarge Hload Hpre.
    unfold overlay. rewrite Htpl, Hshow, Hlarge, Hload; simpl.
    unfold render_overlay. by rewrite Hnone, Hpre.
Qed.

(** *** A template that does not decode *)

Lemma predict_bad_template r uf tf msg :
  tpl_file r = Some tf -> json_loads tf = Raise msg ->
  predict r uf = match preprocess uf with
                 | Ok _ => Raise msg
                 | Raise e => Raise e
                 end.
Proof.
  intros Htpl Hload. unfold predict.
  destruct (preprocess uf) as [np_img|e]; [|done]. simpl.
  unfold detect_args. by rewrite Htpl, Hload.
Qed.

(** X11.  A template that does not decode stops no run before its images:
    every image is opened and gets exactly one failure row, carrying its
    own preprocessing error or else the decode error; no sheet is built and
    [answers] stays unbound; and when the overlay is asked for, decoding the
    template again outside any [try] ends the script with that error. *)
Theorem undecodable_template_fails_every_image post r files tf msg
    (Htpl : tpl_file r = Some tf) (Hload : json_loads tf = Raise msg) :
  results (evaluate post r files)
    = (fun uf => error_row uf (match preprocess uf with
                               | Ok _ => msg
                               | Raise e => e
                               end)) <$> files /\
  detailed_sheets (evaluate post r files) = [] /\
  answers (evaluate post r files) = None /\
  (show_overlay r = true -> large_batch r = false -> files <> [] ->
   overlay r files (evaluate post r files) = ScriptError msg).
Proof.
  assert (Hpred : forall uf, exists e, predict r uf = Raise e).
  { intros uf. rewrite (predict_bad_template _ _ _ _ Htpl Hload).
    destruct (preprocess uf); by eexists. }
  split; [|split; [|split]].
  - rewrite evaluate_spec; simpl.
    induction files as [|uf files IH]; [done|].
    rewrite !fmap_cons, concat_cons, IH. unfold image_rows at 1.
    rewrite (predict_bad_template _ _ _ _ Htpl Hload).
    by destruct (preprocess uf).
  - rewrite evaluate_spec; simpl. apply concat_all_nil. intros uf.
    unfold image_sheets. by destruct (Hpred uf) as [e ->].
  - apply answers_unbound. intros uf _. apply Hpred.
  - intros Hshow Hlarge Hne. unfold overlay. rewrite Htpl.
    destruct files as [|first others]; [done|].
    by rewrite Hshow, Hlarge, Hload.
Qed.

(** *** The summary table and the export *)

Lemma elem_of_df_columns (results : list (gmap string value)) c :
  c ∈ df_columns results <-> exists row, row ∈ results /\ is_Some (row !! c).
Proof.
  unfold df_columns. rewrite elem_of_union_list. split.
  - intros (X & HX & Hc). apply list_elem_of_fmap in HX as (row & -> & Hrow).
    exists row. split; [done|]. by apply elem_of_dom.
  - intros (row & Hrow & Hc). exists (dom row). split.
    + apply list_elem_of_fmap. by exists row.
    + by apply elem_of_dom.
Qed.

Lemma summary_row_keys r uf a row :
  summary_row r uf a = Ok row ->
  is_Some (row !! "filename") /\
  ("error" ∉ subjects -> row !! "error" = None).
Proof.
  unfold summary_row.
  destruct (scores r a) as [[m t]|]; [|done]. simpl.
  destruct (fill_subjects subjects m (base_row r uf)) as [row0|] eqn:Hfill;
    [|done]. simpl. intros [= <-].
  pose proof (fun k => fill_subjects_lookup _ _ _ _ k Hfill) as Hlook.
  assert (Hother : forall k, k <> "total" ->
            (match t with Some x => <["total" := VScore x]> row0 | None => row0 end)
              !! k = row0 !! k).
  { intros k Hk. destruct t; [by rewrite lookup_insert_ne|done]. }
  split.
  - rewrite Hother, Hlook by done.
    destruct (if decide ("filename" ∈ subjects) then _ else _) as [[x|]|];
      [by eexists| |]; unfold base_row; rewrite lookup_insert_eq; by eexists.
  - intros Hnot. rewrite Hother, Hlook, decide_False by done.
    unfold base_row. by rewrite lookup_insert_ne, lookup_singleton_ne.
Qed.

Lemma image_rows_cases r uf row :
  row ∈ image_rows r uf ->
  (exists msg, row = error_row uf msg) \/
  (exists a, predict r uf = Ok a /\ summary_row r uf a = Ok row).
Proof.
  unfold image_rows.
  destruct (predict r uf) as [a|msg] eqn:Ha.
  2:{ intros ->%list_elem_of_singleton. left. by exists msg. }
  destruct (summary_row r uf a) as [row0|msg] eqn:Hrow.
  2:{ intros ->%list_elem_of_singleton. left. by exists msg. }
  assert (Hcases : forall l : list (gmap string value),
            (l = [row0] \/ exists msg, l = [row0; error_row uf msg]) ->
            row ∈ l ->
            (exists msg, row = error_row uf msg) \/
            (exists a', Ok a = Ok a' /\ summary_row r uf a' = Ok row)).
  { intros l [->|[msg ->]] Hin.
    - apply list_elem_of_singleton in Hin as ->. right. by exists a.
    - apply elem_of_cons in Hin as [->|Hin]; [right; by exists a|].
      apply list_elem_of_singleton in Hin. left. by exists msg. }
  apply Hcases.
  destruct (if large_batch r then _ else _) as [[]|msg]; [|right; by exists msg].
  destruct (save_to_db r && _); [|by left].
  destruct import_requests as [[]|msg]; [by left|right; by exists msg].
Qed.

Lemma records_cases post r files row :
  row ∈ results (evaluate post r files) ->
  exists uf, uf ∈ files /\ row ∈ image_rows r uf.
Proof.
  rewrite evaluate_spec; simpl. intros Hrow.
  apply elem_of_concat in Hrow as (rows & Hrow & Hrows).
  apply list_elem_of_fmap in Hrows as (uf & -> & Huf). by exists uf.
Qed.

Lemma records_have_filename post r files row :
  row ∈ results (evaluate post r files) -> is_Some (row !! "filename").
Proof.
  intros (uf & _ & Hrow)%records_cases.
  apply image_rows_cases in Hrow as [[msg ->]|(a & _ & Hrow)].
  - unfold error_row. rewrite lookup_insert_eq. by eexists.
  - by apply summary_row_keys in Hrow as [? _].
Qed.

(** X16.  Whenever a batch evaluated an image, the exported table is a
    selection of columns that starts with "filename" (the fallback to the
    whole frame never applies), and every line of it, the failure rows
    included, carries a filename in that first column. *)
Theorem export_starts_with_filename post r files (Hfiles : files <> []) :
  exists cols,
    df_for_export (results (evaluate post r files))
      = Selected (select ("filename" :: cols) (results (evaluate post r files))) /\
    Forall (fun line => exists v, head line = Some (Some v))
           (cells (select ("filename" :: cols) (results (evaluate post r files)))).
Proof.
  assert (Hne : exists row rows, results (evaluate post r files) = row :: rows).
  { pose proof (results_count post r files) as Hc.
    destruct files as [|uf fs]; [done|].
    destruct (results (evaluate post r (uf :: fs))) as [|row rows];
      [simpl in Hc; lia|by eexists _, _]. }
  destruct Hne as (row & rows & Hres).
  assert (Hcol : "filename" ∈ df_columns (results (evaluate post r files))).
  { apply elem_of_df_columns. exists row. split.
    - rewrite Hres. by left.
    - apply (records_have_filename post r files). rewrite Hres. by left. }
  exists (filter (fun c => c ∈ df_columns (results (evaluate post r files)))
                 ("Set" :: subjects ++ ["total"])).
  assert (Hord : ordered_cols (results (evaluate post r files))
            = "filename" :: filter (fun c => c ∈ df_columns (results (evaluate post r files)))
                                   ("Set" :: subjects ++ ["total"])).
  { unfold ordered_cols. by rewrite filter_cons_True. }
  split.
  - unfold df_for_export. by rewrite Hord.
  - unfold select; simpl. apply Forall_forall. intros line Hline.
    apply list_elem_of_fmap in Hline as (row' & -> & Hrow').
    destruct (records_have_filename post r files row' Hrow') as [v Hv].
    exists v. simpl. by rewrite Hv.
Qed.

(** X17.  Unless a subject is itself called "error", the failure reasons
    never reach the export: the exported columns are drawn, in order, from
    filename, Set, the subjects and total, "error" is not among them, and
    the line of a failure row is empty in every column but "filename". *)
Theorem export_drops_error_reasons (results : list (gmap string value))
    (Hsubj : "error" ∉ subjects) :
  (ordered_cols results
     `sublist_of` ("filename" :: "Set" :: subjects ++ ["total"])) /\
  ("error" ∉ ordered_cols results) /\
  (forall uf msg c, c ∈ ordered_cols results -> c <> "filename" ->
     error_row uf msg !! c = None).
Proof.
  assert (Hnot : "error" ∉ ordered_cols results).
  { unfold ordered_cols. rewrite list_elem_of_filter. intros [_ Hin].
    apply elem_of_cons in Hin as [?|Hin]; [done|].
    apply elem_of_cons in Hin as [?|Hin]; [done|].
    apply elem_of_app in Hin as [?|Hin]; [done|].
    by apply list_elem_of_singleton in Hin. }
  split; [apply sublist_filter|]. split; [exact Hnot|].
  intros uf msg c Hc Hne. unfold error_row.
  rewrite lookup_insert_ne by done. apply lookup_singleton_ne.
  intros <-. done.
Qed.

(** X18.  Unless a subject is itself called "error", the Errors pane
    never fails on a missing "filename" column; its table exists exactly
    when some record is a failure row, it is then not empty, and it lists
    the filename and reason of the failure rows and of nothing else. *)
Theorem errors_table_lists_failures post r files
    (Hsubj : "error" ∉ subjects) :
  match errors (results (evaluate post r files)) with
  | ErrorRows table =>
      table <> [] /\
      forall f e, (f, e) ∈ table <->
        exists uf msg, uf ∈ files /\
          error_row uf msg ∈ results (evaluate post r files) /\
          f = VStr (name uf) /\ e = VStr msg
  | NoErrorColumn =>
      forall uf msg, error_row uf msg ∉ results (evaluate post r files)
  | FilenameKeyError => False
  end.
Proof.
  set (res := results (evaluate post r files)).
  set (g := fun row : gmap string value =>
              f ← row !! "filename"; e ← row !! "error"; Some (f, e)).
  assert (Herr : forall uf msg,
            g (error_row uf msg) = Some (VStr (name uf), VStr msg)).
  { intros uf msg. unfold g, error_row.
    rewrite lookup_insert_eq; simpl.
    by rewrite lookup_insert_ne, lookup_singleton_eq. }
  assert (Hrows : forall row, row ∈ res ->
            (exists uf msg, uf ∈ files /\ row = error_row uf msg) \/
            row !! "error" = None).
  { intros row Hrow. apply records_cases in Hrow as (uf & Huf & Hrow).
    apply image_rows_cases in Hrow as [[msg ->]|(a & _ & Hrow)].
    - left. by exists uf, msg.
    - right. apply summary_row_keys in Hrow as [_ Hno]. by apply Hno. }
  unfold errors. fold res.
  destruct (decide ("error" ∈ df_columns res)) as [Hcol|Hcol].
  - apply elem_of_df_columns in Hcol as (row & Hrow & [e He]).
    destruct (Hrows row Hrow) as [(uf & msg & _ & ->)|Hnone]; [|congruence].
    rewrite decide_True.
    2:{ apply elem_of_df_columns. exists (error_row uf msg). split; [done|].
        apply (records_have_filename post r files). exact Hrow. }
    fold g. split.
    + intros Hnil.
      assert (Hin : (VStr (name uf), VStr msg) ∈ omap g res).
      { apply list_elem_of_omap. exists (error_row uf msg). by split. }
      rewrite Hnil in Hin. by apply elem_of_nil in Hin.
    + intros f e'. rewrite list_elem_of_omap. split.
      * intros (row & Hrow' & Hg).
        destruct (Hrows row Hrow') as [(uf' & msg' & Huf & ->)|Hnone].
        -- rewrite Herr in Hg. injection Hg as <- <-. by exists uf', msg'.
        -- unfold g in Hg. rewrite Hnone in Hg.
           by destruct (row !! "filename").
      * intros (uf' & msg' & _ & Hrow' & -> & ->).
        by exists (error_row uf' msg').
  - intros uf msg Hrow. apply Hcol. apply elem_of_df_columns.
    exists (error_row uf msg). split; [done|].
    unfold error_row. rewrite lookup_insert_ne, lookup_singleton_eq by done.
    by eexists.
Qed.

End Facts.

Section KeyFacts.
Context `{Services}.
Variable ExcelFile : string -> exc (list string).
Variable selectbox_sidebar : list string -> exc (option string).
Variable selectbox_main : list string -> exc (option string).
Variable parse_key_excel : string -> option string -> exc (option KeyMap).


(** X12.  A key read from the sidebar wins: once the sidebar upload yields
    a key, the main-pane upload is not read at all, whatever it holds; the
    expander stays closed and no warning shows. *)
Theorem sidebar_key_wins key_bytes names sheet km key_file_main
    (Hxls : ExcelFile key_bytes = Ok names)
    (Hpick : selectbox_sidebar names = Ok sheet)
    (Hparse : parse_key_excel key_bytes sheet = Ok (Some km)) :
  load_key ExcelFile selectbox_sidebar selectbox_main
    parse_key_excel (Some key_bytes) key_file_main
    = mkKeyState sheet (Some km) [SidebarSuccess sheet] false.
Proof.
  unfold load_key, load_sidebar, read_key.
  by rewrite Hxls, Hpick, Hparse.
Qed.

(** X13.  When the sidebar key fails to parse after its sheet was picked
    and no main-pane key is given, no key is loaded and the warning shows,
    but [key_sheet] keeps the picked sheet: a run evaluating in that state
    scores nothing and still labels every row's "Set" with that sheet. *)
Theorem failed_key_sheet_still_labels key_bytes names s msg r uf
    (Hxls : ExcelFile key_bytes = Ok names)
    (Hpick : selectbox_sidebar names = Ok (Some s))
    (Hparse : parse_key_excel key_bytes (Some s) = Raise msg)
    (Hs : s <> "")
    (Hrun : uses_key (load_key ExcelFile selectbox_sidebar selectbox_main
       parse_key_excel (Some key_bytes) None) r) :
  load_key ExcelFile selectbox_sidebar selectbox_main
    parse_key_excel (Some key_bytes) None
    = mkKeyState (Some s) None [SidebarError msg; NoKeyWarning] true /\
  key_loaded r = None /\
  base_row r uf !! "Set" = Some (VStr s).
Proof.
  assert (Hload : load_key ExcelFile selectbox_sidebar selectbox_main
    parse_key_excel (Some key_bytes) None
            = mkKeyState (Some s) None [SidebarError msg; NoKeyWarning] true).
  { unfold load_key, load_sidebar, read_key.
    by rewrite Hxls, Hpick, Hparse. }
  split; [exact Hload|].
  destruct Hrun as [Hmap Hsheet]. rewrite Hload in Hmap, Hsheet; simpl in *.
  split.
  - unfold key_loaded. by rewrite Hmap.
  - unfold base_row, set_label. rewrite Hsheet.
    rewrite lookup_insert_ne, lookup_singleton_eq by done.
    by rewrite decide_False.
Qed.

(** X14.  When the sidebar left no key (no upload, or a failed one), a
    main-pane key that reads well is the one loaded, with its own sheet,
    and no warning shows. *)
Theorem main_pane_key_is_fallback key_file_sidebar key_bytes names sheet km
    (Hsidebar : loaded_map (load_sidebar ExcelFile selectbox_sidebar parse_key_excel
       key_file_sidebar) = None)
    (Hxls : ExcelFile key_bytes = Ok names)
    (Hpick : selectbox_main names = Ok sheet)
    (Hparse : parse_key_excel key_bytes sheet = Ok (Some km)) :
  loaded_map (load_key ExcelFile selectbox_sidebar selectbox_main
       parse_key_excel key_file_sidebar (Some key_bytes)) = Some km /\
  loaded_sheet (load_key ExcelFile selectbox_sidebar selectbox_main
       parse_key_excel key_file_sidebar (Some key_bytes)) = sheet /\
  messages (load_key ExcelFile selectbox_sidebar selectbox_main
       parse_key_excel key_file_sidebar (Some key_bytes))
    = messages (load_sidebar ExcelFile selectbox_sidebar parse_key_excel
       key_file_sidebar) ++ [MainSuccess sheet].
Proof.
  unfold load_key, load_main. rewrite Hsidebar.
  unfold read_key. rewrite Hxls, Hpick, Hparse. done.
Qed.

Lemma load_sidebar_no_warning key_file_sidebar :
  NoKeyWarning ∉ messages (load_sidebar ExcelFile selectbox_sidebar parse_key_excel
       key_file_sidebar).
Proof.
  unfold load_sidebar. destruct key_file_sidebar as [b|]; simpl.
  - destruct (read_key _ _ _ _ _ _) as [[sheet km] [[]|msg]]; simpl;
      by intros [?|?%elem_of_nil]%elem_of_cons.
  - apply not_elem_of_nil.
Qed.

Lemma load_main_no_warning key_file_main ks :
  NoKeyWarning ∉ messages ks ->
  NoKeyWarning ∉ messages (load_main ExcelFile selectbox_main parse_key_excel
       key_file_main ks).
Proof.
  intros Hks. unfold load_main.
  destruct (loaded_map ks); [done|].
  destruct key_file_main as [b|]; [|done].
  destruct (read_key _ _ _ _ _ _) as [[sheet km] [[]|msg]]; simpl;
    rewrite elem_of_app, list_elem_of_singleton; by intros [?|?].
Qed.

(** X15.  The "No answer key loaded" warning shows exactly when [key_map]
    is [None] after both uploaders.  It tests for [None], not for truth: a
    key that parsed to an empty mapping raises no warning although the run
    using it scores nothing. *)
Theorem warning_iff_key_is_none key_file_sidebar key_file_main :
  let ks := load_key ExcelFile selectbox_sidebar selectbox_main parse_key_excel
                     key_file_sidebar key_file_main in
  ((NoKeyWarning ∈ messages ks) <-> (loaded_map ks = None)) /\
  (forall r km,
     uses_key ks r -> loaded_map ks = Some km -> key_truthy km = false ->
     (NoKeyWarning ∉ messages ks) /\ key_loaded r = None).
Proof.
  intros ks.
  assert (Hiff : (NoKeyWarning ∈ messages ks) <-> (loaded_map ks = None)).
  { subst ks. unfold load_key, warn_no_key.
    pose proof (load_main_no_warning key_file_main _
                  (load_sidebar_no_warning key_file_sidebar)) as Hno.
    destruct (loaded_map
                (load_main ExcelFile selectbox_main parse_key_excel
                   key_file_main
                   (load_sidebar ExcelFile selectbox_sidebar parse_key_excel
                      key_file_sidebar))) eqn:E; simpl.
    - rewrite E. split; [by intros ?|done].
    - split; [done|]. intros _. apply elem_of_app. right. by left. }
  split; [exact Hiff|].
  intros r km [Hmap _] Hsome Hfalsy. split.
  - rewrite Hiff, Hsome. done.
  - unfold key_loaded. by rewrite Hmap, Hsome, Hfalsy.
Qed.

End KeyFacts.

(** *** The page in the sample world *)

Import Sample PageSample.

Lemma falsy_key_is_no_key_witness :
  answer_key (_status_metrics [file_1] (key_map run_empty_key) None)
    = "Not loaded".
Proof.
  exact (proj1 (@falsy_key_is_no_key (world true true) post_up run_empty_key
                  [file_1] None eq_refl)).
Defined.

Lemma scored_row_cells_witness :
  exists row, summary_row run_scored file_1 [Detect.Single 0] = Ok row.
Proof.
  destruct (@scored_row_cells (world true true) run_scored file_1
              [Detect.Single 0] [0%nat]
              {[ "Maths" := Some 1%nat ]} (Some 1%nat) eq_refl eq_refl)
    as (row & Hrow & _).
  - intros s Hs. apply list_elem_of_singleton in Hs as ->.
    rewrite lookup_singleton_eq. by eexists.
  - by exists row.
Defined.

Lemma missing_subject_is_failure_witness :
  results (iteration post_up run_no_subject 1 file_1 initial)
    = results (initial (H := world_no_subject)) ++ [error_row file_1 "'Maths'"].
Proof.
  refine (proj1 (@missing_subject_is_failure world_no_subject post_up
                   run_no_subject 1%nat file_1 initial [Detect.Single 0]
                   [0%nat] ∅ (Some 1%nat) [] "Maths" []
                   eq_refl eq_refl eq_refl eq_refl _ eq_refl)).
  intros s' Hs'. by apply elem_of_nil in Hs'.
Defined.

Lemma one_record_per_image_large_unsaved_witness :
  length (results (evaluate post_up run_large [file_1; file_bad])) = 2%nat.
Proof.
  exact (@one_record_per_image_large_unsaved (world true true) post_up
           run_large [file_1; file_bad] eq_refl eq_refl).
Defined.

Lemma large_batch_workbook_is_summary_witness :
  detailed_sheets (evaluate post_up run_large [file_1; file_2]) = [] /\
  @workbook (world true true) Book new_book write_sheet take_28 run_large
            (evaluate post_up run_large [file_1; file_2])
    = (writer ← new_book;
       write_sheet (SummarySheet
                      (df_for_export
                         (results (evaluate post_up run_large [file_1; file_2]))))
                   "Summary" writer).
Proof.
  exact (@large_batch_workbook_is_summary (world true true) Book new_book
           write_sheet take_28 post_up run_large [file_1; file_2] eq_refl).
Defined.

Lemma sheets_belong_to_summarised_images_witness :
  (length (detailed_sheets (evaluate post_up run_scored [file_1; file_bad]))
     <= 2)%nat.
Proof.
  exact (proj2 (@sheets_belong_to_summarised_images (world true true)
                  post_up run_scored [file_1; file_bad] eq_refl)).
Defined.

Lemma no_overlay_without_answers_witness :
  answers (evaluate post_up run_overlay [file_bad]) = None.
Proof.
  refine (proj1 (@no_overlay_without_answers (world true true) post_up
                   run_overlay [file_bad] _)).
  intros uf Huf. apply list_elem_of_singleton in Huf as ->.
  eexists. reflexivity.
Defined.

Lemma undecodable_template_fails_every_image_witness :
  results (evaluate post_up run_bad_template [file_1; file_bad])
    = (fun uf => error_row uf (match @preprocess (world true true) uf with
                               | Ok _ => "Expecting value"
                               | Raise e => e
                               end)) <$> [file_1; file_bad].
Proof.
  exact (proj1 (@undecodable_template_fails_every_image (world true true)
                  post_up run_bad_template [file_1; file_bad] ""
                  "Expecting value" eq_refl eq_refl)).
Defined.

Lemma sidebar_key_wins_witness :
  @load_key (world true true) sheet_names pick_first pick_second parse
            (Some "key.xlsx") (Some "other.xlsx")
    = @mkKeyState (world true true) (Some "SetA") (Some [0%nat])
        [SidebarSuccess (Some "SetA")] false.
Proof.
  exact (@sidebar_key_wins (world true true) sheet_names pick_first pick_second
           parse "key.xlsx" ["SetA"; "SetB"] (Some "SetA") [0%nat]
           (Some "other.xlsx") eq_refl eq_refl eq_refl).
Defined.

Lemma failed_key_sheet_still_labels_witness :
  base_row run_failed_key file_1 !! "Set" = Some (VStr "SetB").
Proof.
  refine (proj2 (proj2 (@failed_key_sheet_still_labels (world true true)
            sheet_names pick_second pick_first parse
            "key.xlsx" ["SetA"; "SetB"] "SetB" "Missing column: Answer"
            run_failed_key file_1 eq_refl eq_refl eq_refl _ _))).
  - discriminate.
  - split; reflexivity.
Defined.

Lemma main_pane_key_is_fallback_witness :
  loaded_map (@load_key (world true true) sheet_names pick_second pick_first
                parse (Some "key.xlsx") (Some "other.xlsx"))
    = Some [0%nat].
Proof.
  exact (proj1 (@main_pane_key_is_fallback (world true true) sheet_names
                  pick_second pick_first parse (Some "key.xlsx") "other.xlsx"
                  ["SetA"; "SetB"] (Some "SetA") [0%nat]
                  eq_refl eq_refl eq_refl eq_refl)).
Defined.

(** Two uploads of one name share a sheet of the workbook, and an upload
    whose name holds a bracket ends the export block with an exception. *)
Example same_name_shares_a_sheet :
  exists book,
    @workbook (world true true) Book new_book write_sheet take_28 run_scored
              (evaluate post_up run_scored [file_1; file_1]) = Ok book /\
    book.*1 = ["Summary"; "one.png"].
Proof. eexists. split; reflexivity. Qed.

Example bracket_in_name_ends_export :
  @workbook (world true true) Book new_book write_sheet take_28 run_scored
            (evaluate post_up run_scored [file_1; file_copy])
    = Raise "Invalid character found in sheet title".
Proof. reflexivity. Qed.

Lemma export_starts_with_filename_witness :
  exists cols,
    df_for_export (results (evaluate post_up (run_plain true true)
                              [file_1; file_bad]))
      = Selected (select ("filename" :: cols)
                         (results (evaluate post_up (run_plain true true)
                                     [file_1; file_bad]))).
Proof.
  destruct (@export_starts_with_filename (world true true) post_up
              (run_plain true true) [file_1; file_bad])
    as (cols & Hexp & _).
  - discriminate.
  - exists cols. exact Hexp.
Defined.

Lemma export_drops_error_reasons_witness :
  "error" ∉ @ordered_cols (world true true)
              [error_row file_bad "cannot identify image file"].
Proof.
  refine (proj1 (proj2 (@export_drops_error_reasons (world true true)
            [error_row file_bad "cannot identify image file"] _))).
  intros Hin. apply list_elem_of_singleton in Hin. discriminate.
Defined.

Lemma errors_table_lists_failures_witness :
  match errors (results (evaluate post_up (run_plain true true)
                           [file_1; file_bad])) with
  | ErrorRows table =>
      table <> [] /\
      forall f e, (f, e) ∈ table <->
        exists uf msg, uf ∈ [file_1; file_bad] /\
          error_row uf msg ∈ results (evaluate post_up (run_plain true true)
                                        [file_1; file_bad]) /\
          f = VStr (name uf) /\ e = VStr msg
  | NoErrorColumn =>
      forall uf msg,
        error_row uf msg ∉ results (evaluate post_up (run_plain true true)
                                      [file_1; file_bad])
  | FilenameKeyError => False
  end.
Proof.
  apply (@errors_table_lists_failures (world true true) post_up
           (run_plain true true) [file_1; file_bad]).
  intros Hin. apply list_elem_of_singleton in Hin. discriminate.
Defined.

End PageFacts.
